(** * launchmango/backend: the repository file tree, identifiers and file handlers

    A shallow embedding of the Go service of [src/unnamed/part_000] (the
    latest revision of [main.go]): the tree builder [loadRepoFiles] with its
    visitor and [setDeepNode], the identifier scheme [md5String], the
    existence test [fileExists], and the HTTP handlers, over an explicit
    model of the filesystem the process works on. *)

From Stdlib Require Import ZArith String Ascii List Bool Lia.
From stdpp Require Import gmap strings list.

Set Warnings "-register-all".
Local Open Scope string_scope.
Local Open Scope Z_scope.

(** ** Results of Go code that may panic *)

Inductive Outcome (A : Type) : Type :=
| Returned (a : A)
| Panicked.
Arguments Returned {A} a.
Arguments Panicked {A}.

#[global] Instance Outcome_ret : MRet Outcome := fun A a => Returned a.

#[global] Instance Outcome_bind : MBind Outcome := fun A B k o =>
  match o with
  | Returned a => k a
  | Panicked => Panicked
  end.

(** ** The part of package [strings] the program uses *)

Module strings.

Fixpoint HasPrefix (s prefix : string) {struct prefix} : bool :=
  match prefix with
  | EmptyString => true
  | String p prefix' =>
      match s with
      | EmptyString => false
      | String c s' => Ascii.eqb c p && HasPrefix s' prefix'
      end
  end.

(** [Contains s substr]: [substr] occurs in [s] at some offset. *)
Fixpoint Contains (s substr : string) : bool :=
  HasPrefix s substr ||
  match s with
  | EmptyString => false
  | String _ s' => Contains s' substr
  end.

(** [Split s sep] for a separator of one byte, the only way the program
    calls it (always with a slash).  The accumulator holds the current
    field.  As in Go the result is never empty: a string without the
    separator gives a one-element slice. *)
Fixpoint split_from (field : string) (s : string) (sep : ascii) : list string :=
  match s with
  | EmptyString => [field]
  | String c s' =>
      if Ascii.eqb c sep then field :: split_from EmptyString s' sep
      else split_from (field +:+ String c EmptyString) s' sep
  end.

Definition Split (s : string) (sep : ascii) : list string :=
  split_from EmptyString s sep.

Fixpoint Join (elems : list string) (sep : string) : string :=
  match elems with
  | [] => EmptyString
  | [e] => e
  | e :: rest => e +:+ sep +:+ Join rest sep
  end.

Fixpoint HasSuffix_rev (rs rsuffix : list ascii) : bool :=
  match rsuffix with
  | [] => true
  | p :: rsuffix' =>
      match rs with
      | [] => false
      | c :: rs' => Ascii.eqb c p && HasSuffix_rev rs' rsuffix'
      end
  end.

Definition HasSuffix (s suffix : string) : bool :=
  HasSuffix_rev (rev (list_ascii_of_string s)) (rev (list_ascii_of_string suffix)).

Definition TrimSuffix (s suffix : string) : string :=
  if HasSuffix s suffix
  then substring 0 (String.length s - String.length suffix) s
  else s.

(** White space as [TrimSpace] sees it in ASCII text. *)
Definition isSpace (c : ascii) : bool :=
  let n := nat_of_ascii c in
  ((9 <=? n) && (n <=? 13))%nat || (n =? 32)%nat.

Fixpoint trimLeft (s : string) : string :=
  match s with
  | String c s' => if isSpace c then trimLeft s' else s
  | EmptyString => EmptyString
  end.

Definition TrimSpace (s : string) : string :=
  let r := string_of_list_ascii (rev (list_ascii_of_string (trimLeft s))) in
  string_of_list_ascii (rev (list_ascii_of_string (trimLeft r))).

End strings.

Definition slash : ascii := "/"%char.

(** ** The data model (lines 24-48) *)

Definition typeFile : string := "file".
Definition typeDir : string := "dir".

(** [Children] is a Go map from names to node pointers.  A node is created
    by one visit and stored under one key of one map, and the visitor keeps
    no other reference to it, so the graph is a tree and the value below
    denotes it; an update through the pointer is an update in place. *)
Inductive FileNode : Type := mkFileNode {
  Type_ : string;
  Name : string;
  Size : Z;
  URL : string;
  Children : gmap string FileNode
}.

Record Repository : Type := mkRepository {
  ID : string;
  RName : string;
  RURL : string;
  Files : option FileNode
}.

Definition setChildren (b : FileNode) (c : gmap string FileNode) : FileNode :=
  mkFileNode (Type_ b) (Name b) (Size b) (URL b) c.

Definition setURL (b : FileNode) (u : string) : FileNode :=
  mkFileNode (Type_ b) (Name b) (Size b) u (Children b).

Definition setFiles (r : Repository) (f : option FileNode) : Repository :=
  mkRepository (ID r) (RName r) (RURL r) f.

(** The node reached from [b] by following [keys] through the children maps. *)
Fixpoint nodeAt (b : FileNode) (keys : list string) : option FileNode :=
  match keys with
  | [] => Some b
  | k :: rest =>
      match Children b !! k with
      | Some v => nodeAt v rest
      | None => None
      end
  end.

(** ** The filesystem the process works on

    The storage root is the process's working directory; every path the
    program uses is relative to it.  A directory lists its entries in the
    order [readDirNames] returns them (sorted by name), which is the order
    [filepath.Walk] visits them in.  Permissions are the owner bits of the
    mode: the process owns the files and is not the superuser. *)

Inductive Errno : Type := ENOENT | EACCES | ENOTDIR | EISDIR.

Inductive Inode : Type :=
| IFile (mode : Z) (data : list Byte.byte)
| IDir (mode : Z) (size : Z) (entries : list (string * Inode)).

Record FileInfo : Type := mkFileInfo {
  fi_Name : string;
  fi_Size : Z;
  fi_Mode : Z;
  fi_IsDir : bool
}.

Module os.

Definition can_read (mode : Z) : bool := Z.testbit mode 8.
Definition can_write (mode : Z) : bool := Z.testbit mode 7.
Definition can_search (mode : Z) : bool := Z.testbit mode 6.

Definition inode_mode (n : Inode) : Z :=
  match n with
  | IFile m _ => m
  | IDir m _ _ => m
  end.

Definition fileInfoOf (name : string) (n : Inode) : FileInfo :=
  match n with
  | IFile m data => mkFileInfo name (Z.of_nat (length data)) m false
  | IDir m size _ => mkFileInfo name size m true
  end.

Fixpoint lookup_entry (name : string) (es : list (string * Inode)) : option Inode :=
  match es with
  | [] => None
  | (k, n) :: rest => if String.eqb k name then Some n else lookup_entry name rest
  end.

(** Path resolution, one segment at a time.  An empty segment (a doubled
    or leading slash) and [.] stay where they are.  The parent entry [..]
    is not modelled: the router cleans request paths before it
    dispatches, so no handler is given one, and resolution finds no entry
    of that name. *)
Fixpoint namei (cur : Inode) (segs : list string) : Errno + Inode :=
  match segs with
  | [] => inr cur
  | s :: rest =>
      match cur with
      | IFile _ _ => inl ENOTDIR
      | IDir m _ es =>
          if String.eqb s "" then namei cur rest
          else if negb (can_search m) then inl EACCES
          else if String.eqb s "." then namei cur rest
          else match lookup_entry s es with
               | Some n => namei n rest
               | None => inl ENOENT
               end
      end
  end.

Definition resolve (fs : Inode) (name : string) : Errno + Inode :=
  namei fs (strings.Split name slash).

(** The name a [FileInfo] reports: the last element of the path. *)
Definition basename (name : string) : string :=
  match List.filter (fun s => negb (String.eqb s "")) (strings.Split name slash) with
  | [] => if String.eqb name "" then "" else "/"
  | s :: segs => List.last segs s
  end.

(** There are no symbolic links in the model: [Stat] and [Lstat] agree. *)
Definition Lstat (fs : Inode) (name : string) : Errno + FileInfo :=
  match resolve fs name with
  | inl e => inl e
  | inr n => inr (fileInfoOf (basename name) n)
  end.

Definition Stat := Lstat.

Definition IsNotExist (e : Errno) : bool :=
  match e with
  | ENOENT => true
  | _ => false
  end.

(** [os.Open]: open for reading.  The handle is the inode as it is now. *)
Definition Open (fs : Inode) (name : string) : Errno + Inode :=
  match resolve fs name with
  | inl e => inl e
  | inr n => if can_read (inode_mode n) then inr n else inl EACCES
  end.

(** What [io.Copy] gets out of an open file: the bytes of a regular file;
    reading a directory fails at once and nothing is copied. *)
Definition read_all (n : Inode) : list Byte.byte :=
  match n with
  | IFile _ data => data
  | IDir _ _ _ => []
  end.

Fixpoint set_entry (name : string) (n : Inode) (es : list (string * Inode))
  : list (string * Inode) :=
  match es with
  | [] => [(name, n)]
  | (k, v) :: rest =>
      if String.eqb k name then (k, n) :: rest else (k, v) :: set_entry name n rest
  end.

(** Opening for writing with [O_WRONLY|O_CREATE|O_TRUNC] and writing
    [data]: an existing regular file keeps its mode and gets the new
    bytes, a missing last element is created with mode [perm] when its
    directory may be written. *)
Fixpoint write_at (cur : Inode) (segs : list string) (data : list Byte.byte) (perm : Z)
  : Errno + Inode :=
  match segs with
  | [] =>
      match cur with
      | IFile m _ => if can_write m then inr (IFile m data) else inl EACCES
      | IDir _ _ _ => inl EISDIR
      end
  | s :: rest =>
      match cur with
      | IFile _ _ => inl ENOTDIR
      | IDir m sz es =>
          if String.eqb s "" then write_at cur rest data perm
          else if negb (can_search m) then inl EACCES
          else if String.eqb s "." then write_at cur rest data perm
          else match lookup_entry s es with
               | Some n =>
                   match write_at n rest data perm with
                   | inr n' => inr (IDir m sz (set_entry s n' es))
                   | inl e => inl e
                   end
               | None =>
                   match rest with
                   | [] => if can_write m
                           then inr (IDir m sz (set_entry s (IFile perm data) es))
                           else inl EACCES
                   | _ :: _ => inl ENOENT
                   end
               end
      end
  end.

(** [os.Open] of a directory followed by [Readdir(-1)]: the entries in
    directory order. *)
Definition Readdir (fs : Inode) (name : string) : Errno + list FileInfo :=
  match resolve fs name with
  | inl e => inl e
  | inr (IFile _ _) => inl ENOTDIR
  | inr (IDir m _ es) =>
      if can_read m && can_search m
      then inr (map (fun e => fileInfoOf (fst e) (snd e)) es)
      else inl EACCES
  end.

Fixpoint delete_entry (name : string) (es : list (string * Inode)) : list (string * Inode) :=
  match es with
  | [] => []
  | (k, v) :: rest =>
      if String.eqb k name then rest else (k, v) :: delete_entry name rest
  end.

(** [os.RemoveAll]: the entry and everything below it go when its directory
    may be written; a path that names nothing is no error. *)
Fixpoint remove_at (cur : Inode) (segs : list string) : Errno + Inode :=
  match segs with
  | [] => inr cur
  | s :: rest =>
      match cur with
      | IFile _ _ => inl ENOTDIR
      | IDir m sz es =>
          if String.eqb s "" then remove_at cur rest
          else if negb (can_search m) then inl EACCES
          else if String.eqb s "." then remove_at cur rest
          else match lookup_entry s es with
               | None => inr cur
               | Some n =>
                   match rest with
                   | [] => if can_write m then inr (IDir m sz (delete_entry s es))
                           else inl EACCES
                   | _ :: _ =>
                       match remove_at n rest with
                       | inr n' => inr (IDir m sz (set_entry s n' es))
                       | inl e => inl e
                       end
                   end
               end
      end
  end.

Definition RemoveAll (fs : Inode) (path : string) : Inode * option Errno :=
  match remove_at fs (strings.Split path slash) with
  | inr fs' => (fs', None)
  | inl e => (fs, Some e)
  end.

End os.

Module ioutil.

(** [ioutil.WriteFile]: the new filesystem, and the error if there is one
    (the filesystem is then as it was). *)
Definition WriteFile (fs : Inode) (filename : string) (data : list Byte.byte) (perm : Z)
  : Inode * option Errno :=
  match os.write_at fs (strings.Split filename slash) data perm with
  | inr fs' => (fs', None)
  | inl e => (fs, Some e)
  end.

End ioutil.

Module filepath.

(** [Clean] on the segments of a path: empty and [.] elements go, [..]
    takes back the element before it, or stays when there is none and the
    path is not rooted. *)
Fixpoint clean_segs (rooted : bool) (out : list string) (segs : list string) : list string :=
  match segs with
  | [] => rev out
  | s :: rest =>
      if String.eqb s "" || String.eqb s "." then clean_segs rooted out rest
      else if String.eqb s ".." then
        match out with
        | o :: out' =>
            if String.eqb o ".." then clean_segs rooted (s :: out) rest
            else clean_segs rooted out' rest
        | [] => if rooted then clean_segs rooted [] rest
                else clean_segs rooted [s] rest
        end
      else clean_segs rooted (s :: out) rest
  end.

Definition Clean (path : string) : string :=
  if String.eqb path "" then "."
  else
    let rooted := strings.HasPrefix path "/" in
    let out := strings.Join (clean_segs rooted [] (strings.Split path slash)) "/" in
    if rooted then "/" +:+ out
    else if String.eqb out "" then "." else out.

(** [Join] of two elements, as [walk] calls it. *)
Definition Join (a b : string) : string :=
  if String.eqb a "" then (if String.eqb b "" then "" else Clean b)
  else if String.eqb b "" then Clean a
  else Clean (a +:+ "/" +:+ b).

(** [Walk] and [walk], as the library has them: a directory is listed
    first, which takes read permission, and the visitor is called on it
    once, with the error of the listing if there is one; then each entry is
    examined with [lstat], which takes search permission on the directory,
    and walked, or handed to the visitor without file info when [lstat]
    fails.  The recursion is on the tree that the paths name. *)
Section Walk.
Context {S : Type}.
(** The visitor: path, file info (absent when [lstat] failed), the error
    handed to it, and the state it closes over.  The program's visitor
    returns [nil] on every path, so what [Walk] does with another
    result ([SkipDir], or stopping the walk) never applies and the
    visitor's result is only its state; it may panic. *)
Variable walkFn : string -> option FileInfo -> option Errno -> S -> Outcome S.

Fixpoint walk (path : string) (info : FileInfo) (n : Inode) (st : S) {struct n}
  : Outcome S :=
  match n with
  | IFile _ _ => walkFn path (Some info) None st
  | IDir m _ es =>
      if os.can_read m then
        st1 ← walkFn path (Some info) None st;
        (fix each (es : list (string * Inode)) (st : S) {struct es} : Outcome S :=
           match es with
           | [] => Returned st
           | (name, child) :: rest =>
               let filename := Join path name in
               st' ← (if os.can_search m
                      then walk filename (os.fileInfoOf name child) child st
                      else walkFn filename None (Some EACCES) st);
               each rest st'
           end) es st1
      else walkFn path (Some info) (Some EACCES) st
  end.

Definition Walk (fs : Inode) (root : string) (st : S) : Outcome S :=
  match os.resolve fs root with
  | inl e => walkFn root None (Some e) st
  | inr n => walk root (os.fileInfoOf (os.basename root) n) n st
  end.
End Walk.

End filepath.

(** ** The tree builder (lines 151-205) *)

(** The path classifier of the visitor: line 154 decides what is skipped,
    lines 158-161 tell directories from files. *)
Inductive Class : Type := Skip | File | Directory.

Definition skipped (path : string) : bool := strings.Contains path ".git".

Definition classify (path : string) (isDir : bool) : Class :=
  if skipped path then Skip
  else if isDir then Directory else File.

Definition fileType (c : Class) : string :=
  match c with
  | Directory => typeDir
  | _ => typeFile
  end.

(** [setDeepNode] (lines 195-205).  [keys[0]] panics on an empty slice.  The
    recursive call updates the child [v] in place, which is the child stored
    under [keys[0]]. *)
Fixpoint setDeepNode (b : FileNode) (keys : list string) (f : FileNode)
  : Outcome FileNode :=
  match keys with
  | [] => Panicked
  | k :: rest =>
      match Children b !! k, rest with
      | Some v, _ :: _ =>
          v' ← setDeepNode v rest f;
          Returned (setChildren b (<[k := v']> (Children b)))
      | _, _ =>
          if (length keys =? 1)%nat
          then Returned (setChildren b (<[Name f := f]> (Children b)))
          else Returned b
      end
  end.

(** Lines 163-168: the node of an entry. *)
Definition newNode (c : Class) (f : FileInfo) : FileNode :=
  mkFileNode (fileType c) (fi_Name f) (fi_Size f) "" ∅.

(** Lines 176-177: the address of a file. *)
Definition fileURL (repoID path : string) : string :=
  "/repositories/" +:+ repoID +:+ "/files/" +:+
  strings.Join (tail (strings.Split path slash)) "/".

(** Lines 175-178. *)
Definition addURL (repoID path : string) (node : FileNode) : FileNode :=
  if String.eqb (Type_ node) "file" then setURL node (fileURL repoID path) else node.

(** Lines 180-186: where the node goes. *)
Definition insertNode (first : FileNode) (path : string) (node : FileNode)
  : Outcome FileNode :=
  let parentPathParts := tail (strings.Split path slash) in
  if (length parentPathParts <=? 1)%nat
  then Returned (setChildren first (<[Name node := node]> (Children first)))
  else setDeepNode first (removelast parentPathParts) node.

(** The visitor (lines 153-189); its state is the variable [first] it closes
    over.  It ignores [err]; with no file info, [f.IsDir()] is a call on a
    nil interface and panics. *)
Definition visitFunc (repoID : string)
  (path : string) (f : option FileInfo) (err : option Errno) (first : option FileNode)
  : Outcome (option FileNode) :=
  if skipped path then Returned first
  else
    match f with
    | None => Panicked
    | Some fi =>
        let node := newNode (classify path (fi_IsDir fi)) fi in
        match first with
        | None => Returned (Some node)
        | Some fst =>
            fst' ← insertNode fst path (addURL repoID path node);
            Returned (Some fst')
        end
    end.

(** [loadRepoFiles] (lines 151-193): the result of [Walk] is dropped, and
    [repo.Files] is whatever [first] is when the walk is over. *)
Definition loadRepoFiles (fs : Inode) (repo : Repository) : Outcome Repository :=
  first ← filepath.Walk (visitFunc (ID repo)) fs (ID repo) None;
  Returned (setFiles repo first).

(** ** Package [crypto/md5]: the digest of RFC 1321 on 32-bit words *)

Module md5.

Definition w32 (x : Z) : Z := x mod 4294967296.

Definition rotl (x : Z) (c : Z) : Z :=
  w32 (Z.lor (Z.shiftl x c) (Z.shiftr x (32 - c))).

Definition not32 (x : Z) : Z := Z.lxor x 4294967295.

Definition shifts : list Z :=
  [7; 12; 17; 22; 7; 12; 17; 22; 7; 12; 17; 22; 7; 12; 17; 22;
   5; 9; 14; 20; 5; 9; 14; 20; 5; 9; 14; 20; 5; 9; 14; 20;
   4; 11; 16; 23; 4; 11; 16; 23; 4; 11; 16; 23; 4; 11; 16; 23;
   6; 10; 15; 21; 6; 10; 15; 21; 6; 10; 15; 21; 6; 10; 15; 21].

Definition table : list Z :=
  [3614090360; 3905402710; 606105819; 3250441966; 4118548399; 1200080426;
   2821735955; 4249261313; 1770035416; 2336552879; 4294925233; 2304563134;
   1804603682; 4254626195; 2792965006; 1236535329; 4129170786; 3225465664;
   643717713; 3921069994; 3593408605; 38016083; 3634488961; 3889429448;
   568446438; 3275163606; 4107603335; 1163531501; 2850285829; 4243563512;
   1735328473; 2368359562; 4294588738; 2272392833; 1839030562; 4259657740;
   2763975236; 1272893353; 4139469664; 3200236656; 681279174; 3936430074;
   3572445317; 76029189; 3654602809; 3873151461; 530742520; 3299628645;
   4096336452; 1126891415; 2878612391; 4237533241; 1700485571; 2399980690;
   4293915773; 2240044497; 1873313359; 4264355552; 2734768916; 1309151649;
   4149444226; 3174756917; 718787259; 3951481745].

Definition Digest : Type := (Z * Z * Z * Z)%type.

Definition init : Digest := (1732584193, 4023233417, 2562383102, 271733878).

(** A little-endian word from four bytes, and back. *)
Definition word_of (bs : list Z) : Z :=
  nth 0 bs 0 + 256 * nth 1 bs 0 + 65536 * nth 2 bs 0 + 16777216 * nth 3 bs 0.

Definition bytes_of_word (x : Z) : list Z :=
  [x mod 256; (x / 256) mod 256; (x / 65536) mod 256; (x / 16777216) mod 256].

Fixpoint words (n : nat) (bs : list Z) : list Z :=
  match n with
  | O => []
  | S n' => word_of (firstn 4 bs) :: words n' (skipn 4 bs)
  end.

Definition step (m : list Z) (st : Digest) (i : nat) : Digest :=
  let '(a, b, c, d) := st in
  let iz := Z.of_nat i in
  let '(f, g) :=
    if (i <? 16)%nat then (Z.lor (Z.land b c) (Z.land (not32 b) d), iz)
    else if (i <? 32)%nat then (Z.lor (Z.land d b) (Z.land (not32 d) c), (5 * iz + 1) mod 16)
    else if (i <? 48)%nat then (Z.lxor (Z.lxor b c) d, (3 * iz + 5) mod 16)
    else (Z.lxor c (Z.lor b (not32 d)), (7 * iz) mod 16) in
  let f' := w32 (f + a + nth i table 0 + nth (Z.to_nat g) m 0) in
  (d, w32 (b + rotl f' (nth i shifts 0)), b, c).

Definition block (st : Digest) (chunk : list Z) : Digest :=
  let m := words 16 chunk in
  let '(a, b, c, d) := st in
  let '(a', b', c', d') := fold_left (step m) (seq 0 64) st in
  (w32 (a + a'), w32 (b + b'), w32 (c + c'), w32 (d + d')).

Fixpoint blocks (n : nat) (st : Digest) (bs : list Z) : Digest :=
  match n with
  | O => st
  | S n' => blocks n' (block st (firstn 64 bs)) (skipn 64 bs)
  end.

(** The message, the byte [0x80], zeros up to 56 modulo 64, and the length
    in bits as 64 bits, little-endian. *)
Definition pad (msg : list Z) : list Z :=
  let len := Z.of_nat (length msg) in
  let zeros := Z.to_nat ((55 - len) mod 64) in
  let bits := (8 * len) mod 18446744073709551616 in
  msg ++ [128] ++ repeat 0 zeros ++
  bytes_of_word (bits mod 4294967296) ++ bytes_of_word (bits / 4294967296).

(** [h.Sum(nil)] after writing [msg] to a new hash: 16 bytes. *)
Definition Sum (msg : list Z) : list Z :=
  let p := pad msg in
  let '(a, b, c, d) := blocks (length p / 64) init p in
  bytes_of_word a ++ bytes_of_word b ++ bytes_of_word c ++ bytes_of_word d.

End md5.

(** ** [md5String] (lines 106-110) *)

Definition hexdigit (n : Z) : ascii :=
  match String.get (Z.to_nat n) "0123456789abcdef" with
  | Some c => c
  | None => "0"%char
  end.

(** [fmt.Sprintf("%x", b)] for a byte slice: two lowercase digits a byte. *)
Fixpoint sprintf_x (bs : list Z) : string :=
  match bs with
  | [] => EmptyString
  | b :: rest => String (hexdigit (b / 16)) (String (hexdigit (b mod 16)) (sprintf_x rest))
  end.

Definition bytes_of_string (s : string) : list Z :=
  map (fun c => Z.of_nat (nat_of_ascii c)) (list_ascii_of_string s).

Definition md5String (s : string) : string :=
  sprintf_x (md5.Sum (bytes_of_string s)).

(** ** [regexpMD5] (line 32): the expression [[0-9a-f]{32}], not anchored *)

Module regexpMD5.

Definition isLowerHex (c : ascii) : bool :=
  let n := nat_of_ascii c in
  ((48 <=? n) && (n <=? 57) || (97 <=? n) && (n <=? 102))%nat.

(** A match of [n] characters of the class at the start of [s]. *)
Fixpoint matchHere (n : nat) (s : string) : bool :=
  match n with
  | O => true
  | S n' =>
      match s with
      | EmptyString => false
      | String c s' => isLowerHex c && matchHere n' s'
      end
  end.

(** [MatchString]: the expression matches at some offset of [s]. *)
Fixpoint MatchString (s : string) : bool :=
  matchHere 32 s ||
  match s with
  | EmptyString => false
  | String _ s' => MatchString s'
  end.

End regexpMD5.

(** ** Errors and responses *)

(** Modelled from the spec: package [httputil] of this repository is not
    under src/.  [HTTPError] is a status with an error, as the handlers
    build it and [ServeHTTP] reads it; the errors of the operating system
    and of a child process are the other two cases of Go's [error]. *)
Inductive error : Type :=
| HTTPError (Status : Z) (Err : string)
| PathError (e : Errno)
| ExitError.

Definition StatusOK : Z := 200.
Definition StatusBadRequest : Z := 400.
Definition StatusNotFound : Z := 404.
Definition StatusInternalServerError : Z := 500.

Definition errNotFound : error := HTTPError StatusNotFound "not found".

(** What a handler writes: raw bytes, or a value passed to the JSON encoder. *)
Inductive Chunk : Type :=
| Raw (b : list Byte.byte)
| JSONRepo (r : Repository)
| JSONRepos (rs : list Repository)
| JSONError (status : Z) (message : string).

(** Modelled from the spec: [httputil.ResponseBuffer] is not under src/.  It
    keeps the status given to [WriteHeader] and what was written, until
    [WriteTo] sends both; a response without a status is sent as 200. *)
Record ResponseBuffer : Type := mkResponseBuffer {
  rb_status : option Z;
  rb_body : list Chunk
}.

Record Response : Type := mkResponse {
  resp_status : Z;
  resp_body : list Chunk
}.

(** A command that was started: its directory and its argument vector. *)
Definition Command : Type := (string * list string)%type.

Record State : Type := mkState {
  st_fs : Inode;
  st_ran : list Command;
  st_w : ResponseBuffer
}.

(** ** The handler monad: state, and a result, a returned Go [error] or a panic *)

Definition M (A : Type) : Type := State -> State * Outcome (error + A).

Definition ret {A : Type} (a : A) : M A := fun st => (st, Returned (inr a)).

Definition bind {A B : Type} (m : M A) (k : A -> M B) : M B := fun st =>
  match m st with
  | (st', Returned (inr a)) => k a st'
  | (st', Returned (inl e)) => (st', Returned (inl e))
  | (st', Panicked) => (st', Panicked)
  end.

Notation "'do' x <- m ; k" := (bind m (fun x => k))
  (at level 10, x pattern, m at level 100, k at level 200).

Definition fail {A : Type} (e : error) : M A := fun st => (st, Returned (inl e)).

Definition lift {A : Type} (o : Outcome A) : M A := fun st =>
  match o with
  | Returned a => (st, Returned (inr a))
  | Panicked => (st, Panicked)
  end.

Definition get_fs : M Inode := fun st => (st, Returned (inr (st_fs st))).

Definition put_fs (fs : Inode) : M unit := fun st =>
  (mkState fs (st_ran st) (st_w st), Returned (inr tt)).

Definition WriteHeader (status : Z) : M unit := fun st =>
  (mkState (st_fs st) (st_ran st)
     (mkResponseBuffer (Some status) (rb_body (st_w st))), Returned (inr tt)).

Definition Write (c : Chunk) : M unit := fun st =>
  (mkState (st_fs st) (st_ran st)
     (mkResponseBuffer (rb_status (st_w st)) (rb_body (st_w st) ++ [c])), Returned (inr tt)).

(** [renderJSON] (lines 214-217); encoding these values does not fail. *)
Definition renderJSON (status : Z) (v : Chunk) : M unit :=
  do _ <- WriteHeader status; Write v.

(** [fileExists] (lines 112-119). *)
Definition fileExists (fs : Inode) (filename : string) : bool :=
  match os.Stat fs ("./" +:+ filename) with
  | inl err => if os.IsNotExist err then false else true
  | inr _ => true
  end.

(** What a request gives a handler: the route variables and the body. *)
Record Request : Type := mkRequest {
  vars_id : string;
  vars_path : string;
  Body : list Byte.byte
}.

Section Handlers.

(** The world outside the program: running a command in a directory gives
    a new filesystem, the output and whether the command succeeded; the
    JSON decoder gives a repository or the text of its error. *)
Variable exec_run : Inode -> string -> list string -> Inode * list Byte.byte * bool.
Variable json_Decode : list Byte.byte -> string + Repository.

(** [cmd.Run] of [exec.Command(argv...)] with [cmd.Dir = dir]. *)
Definition run (dir : string) (argv : list string) : M (list Byte.byte * bool) := fun st =>
  let '(fs', out, ok) := exec_run (st_fs st) dir argv in
  (mkState fs' (st_ran st ++ [(dir, argv)]) (st_w st), Returned (inr (out, ok))).

(** A command started with [go]: it is on its own from here. *)
Definition spawn (argv : list string) : M unit := fun st =>
  (mkState (st_fs st) (st_ran st ++ [("", argv)]) (st_w st), Returned (inr tt)).

(** [runCmd] (lines 121-126). *)
Definition runCmd (argv : list string) : M unit :=
  do (_, ok) <- run "" argv;
  if ok then ret tt else fail ExitError.

(** [gitRemote] (lines 128-136). *)
Definition gitRemote (repoPath : string) : M string :=
  do (u, ok) <- run repoPath ["git"; "config"; "--get"; "remote.origin.url"];
  if ok then ret (strings.TrimSpace (string_of_list_byte u))
  else fail ExitError.

(** [repoName] (lines 138-149). *)
Definition repoName (repoPath : string) : M string :=
  do remote <- gitRemote repoPath;
  let parts := strings.Split remote slash in
  let last := List.last parts "" in
  ret (strings.TrimSuffix last ".git").

Definition loadRepo (repo : Repository) : M Repository :=
  do fs <- get_fs; lift (loadRepoFiles fs repo).

(** [createRepo] (lines 262-288). *)
Definition createRepo (r : Request) : M unit :=
  match json_Decode (Body r) with
  | inl msg => fail (HTTPError StatusBadRequest msg)
  | inr repo =>
      if String.eqb (RURL repo) ""
      then fail (HTTPError StatusBadRequest "url is required")
      else
        let repo := mkRepository (md5String (RURL repo)) (RName repo) (RURL repo) (Files repo) in
        do fs <- get_fs;
        if fileExists fs (ID repo)
        then fail (HTTPError StatusBadRequest "repo already exists")
        else
          do _ <- runCmd ["git"; "clone"; "--recursive"; RURL repo; ID repo];
          do repo' <- loadRepo repo;
          renderJSON StatusOK (JSONRepo repo')
  end.

(** The loop of [listRepos] (lines 302-321). *)
Fixpoint listRepos_loop (fis : list FileInfo) (repos : list Repository)
  : M (list Repository) :=
  match fis with
  | [] => ret repos
  | fi :: rest =>
      if fi_IsDir fi && regexpMD5.MatchString (fi_Name fi)
      then
        do remote <- gitRemote (fi_Name fi);
        do name <- repoName (fi_Name fi);
        do repo <- loadRepo (mkRepository (fi_Name fi) name remote None);
        listRepos_loop rest (repos ++ [repo])
      else listRepos_loop rest repos
  end.

(** [listRepos] (lines 290-324). *)
Definition listRepos (r : Request) : M unit :=
  do fs <- get_fs;
  match os.Readdir fs "." with
  | inl e => fail (PathError e)
  | inr fis =>
      do repos <- listRepos_loop fis [];
      renderJSON StatusOK (JSONRepos repos)
  end.

(** [getRepo] (lines 326-347). *)
Definition getRepo (r : Request) : M unit :=
  let id := vars_id r in
  do fs <- get_fs;
  if negb (fileExists fs id) then fail errNotFound
  else
    do remote <- gitRemote id;
    do name <- repoName id;
    do repo <- loadRepo (mkRepository id name remote None);
    renderJSON StatusOK (JSONRepo repo).

(** [deleteRepo] (lines 349-358). *)
Definition deleteRepo (r : Request) : M unit :=
  let id := vars_id r in
  do fs <- get_fs;
  if negb (fileExists fs id) then fail errNotFound
  else
    match os.RemoveAll fs id with
    | (fs', None) => put_fs fs'
    | (_, Some e) => fail (PathError e)
    end.

(** [buildRepo] (lines 360-376): the output of the build goes to the
    response as it comes; a failed build sets the status and is no error. *)
Definition buildRepo (r : Request) : M unit :=
  let id := vars_id r in
  do fs <- get_fs;
  if negb (fileExists fs id) then fail errNotFound
  else
    do (out, ok) <- run id ["xcodebuild"; "-arch"; "i386"; "-sdk"; "iphonesimulator"];
    do _ <- Write (Raw out);
    if ok then ret tt else WriteHeader StatusInternalServerError.

Fixpoint findProject (files : list FileInfo) : string :=
  match files with
  | [] => ""
  | f :: rest =>
      if strings.HasSuffix (fi_Name f) ".xcodeproj"
      then strings.TrimSuffix (fi_Name f) ".xcodeproj"
      else findProject rest
  end.

(** [runRepo] (lines 378-407). *)
Definition runRepo (r : Request) : M unit :=
  let id := vars_id r in
  do fs <- get_fs;
  if negb (fileExists fs id) then fail errNotFound
  else
    let files := match os.Readdir fs ("./" +:+ id) with
                 | inr fis => fis
                 | inl _ => []
                 end in
    let projectName := findProject files in
    do _ <- spawn ["osascript"; "trigger_move_simulator.applescript"];
    do (_, ok) <- run id ["ios-sim"; "launch";
                       "build/Release-iphonesimulator/" +:+ projectName +:+ ".app"];
    if ok then ret tt else fail ExitError.

(** [getRepoFile] (lines 409-424). *)
Definition getRepoFile (r : Request) : M unit :=
  let filePath := vars_id r +:+ "/" +:+ vars_path r in
  do fs <- get_fs;
  match os.Open fs filePath with
  | inl err => if os.IsNotExist err then fail errNotFound else fail (PathError err)
  | inr file => Write (Raw (os.read_all file))
  end.

(** [setRepoFile] (lines 426-445): the errors of [ReadAll], [Stat] and
    [WriteFile] are dropped. *)
Definition setRepoFile (r : Request) : M unit :=
  let filePath := vars_id r +:+ "/" +:+ vars_path r in
  do fs <- get_fs;
  match os.Open fs filePath with
  | inl err => if os.IsNotExist err then fail errNotFound else ret tt
  | inr file =>
      let body := Body r in
      put_fs (fst (ioutil.WriteFile fs filePath body (os.inode_mode file)))
  end.

End Handlers.

(** ** [ServeHTTP] (lines 52-73) and [handleError] (lines 87-104) *)

(** [http.StatusText], for the one status it is called with. *)
Definition StatusText (status : Z) : string :=
  if status =? 500 then "Internal Server Error" else "".

Definition handleError (status : Z) (message : string) (showErrorMsg : bool) : Response :=
  mkResponse status
    [JSONError status (if showErrorMsg then message else StatusText status)].

Definition WriteTo (rb : ResponseBuffer) : Response :=
  mkResponse (default StatusOK (rb_status rb)) (rb_body rb).

(** The filesystem and the commands run when the request is over, and the
    response sent. *)
Definition ServeHTTP (h : Request -> M unit) (r : Request)
  (fs : Inode) (ran : list Command) : Inode * list Command * Response :=
  match h r (mkState fs ran (mkResponseBuffer None [])) with
  | (st, Returned (inr _)) => (st_fs st, st_ran st, WriteTo (st_w st))
  | (st, Returned (inl (HTTPError status msg))) =>
      (st_fs st, st_ran st, handleError status msg true)
  | (st, Returned (inl _)) =>
      (st_fs st, st_ran st, handleError StatusInternalServerError "" false)
  | (st, Panicked) =>
      (st_fs st, st_ran st, handleError StatusInternalServerError "handler panic" false)
  end.

(** ** Names as the filesystem has them *)

Fixpoint slashfree (s : string) : bool :=
  match s with
  | EmptyString => true
  | String c s' => negb (Ascii.eqb c slash) && slashfree s'
  end.

(** A name a directory entry can have: not empty, without a slash, and
    neither [.] nor [..]. *)
Definition plain (s : string) : bool :=
  slashfree s && negb (String.eqb s "") && negb (String.eqb s ".")
  && negb (String.eqb s "..").

(** ** The walk, one directory at a time *)

(** The loop of [walk] over the entries of a directory. *)
Section WalkEntries.
Context {S : Type}.
Variable walkFn : string -> option FileInfo -> option Errno -> S -> Outcome S.
Variable m : Z.
Variable path : string.

Fixpoint walk_entries (es : list (string * Inode)) (st : S) {struct es} : Outcome S :=
  match es with
  | [] => Returned st
  | (name, child) :: rest =>
      let filename := filepath.Join path name in
      st' ← (if os.can_search m
             then filepath.walk walkFn filename (os.fileInfoOf name child) child st
             else walkFn filename None (Some EACCES) st);
      walk_entries rest st'
  end.
End WalkEntries.

(** Induction on a filesystem tree, with the hypothesis for every entry of
    a directory. *)
Fixpoint Inode_nested_ind (P : Inode -> Prop)
    (Hfile : forall m data, P (IFile m data))
    (Hdir : forall m sz es, Forall (fun e => P (snd e)) es -> P (IDir m sz es))
    (n : Inode) {struct n} : P n :=
  match n with
  | IFile m data => Hfile m data
  | IDir m sz es =>
      Hdir m sz es
        ((fix entries (es : list (string * Inode)) : Forall (fun e => P (snd e)) es :=
            match es with
            | [] => List.Forall_nil _
            | e :: rest =>
                List.Forall_cons _ e rest (Inode_nested_ind P Hfile Hdir (snd e)) (entries rest)
            end) es)
  end.

(** Every entry below [n] has a name a directory entry can have. *)
Fixpoint plain_names (n : Inode) : bool :=
  match n with
  | IFile _ _ => true
  | IDir _ _ es => forallb (fun e => plain (fst e) && plain_names (snd e)) es
  end.

(** [path] is [root] followed by names of entries, joined by slashes. *)
Definition under (root path : string) : Prop :=
  exists segs, forallb plain segs = true /\ path = strings.Join (root :: segs) "/".

(** ** Properties of outcomes, nodes and handler computations *)

(** [keeps I o]: the outcome [o] is a panic, or a state with the property
    [I]. *)
Definition keeps {S : Type} (I : S -> Prop) (o : Outcome S) : Prop :=
  match o with
  | Returned st => I st
  | Panicked => True
  end.

(** The entry a node describes: everything but its children. *)
Definition same_entry (a b : FileNode) : Prop :=
  Type_ a = Type_ b /\ Name a = Name b /\ Size a = Size b /\ URL a = URL b.

(** A computation that neither sets the status 404 nor returns an
    [HTTPError] with it, from a state where the status is not 404. *)
Definition no404 {A : Type} (m : M A) : Prop :=
  forall st,
    rb_status (st_w st) <> Some StatusNotFound ->
    rb_status (st_w (m st).1) <> Some StatusNotFound /\
    forall msg, (m st).2 <> Returned (inl (HTTPError StatusNotFound msg)).

(** A computation that writes nothing to the response. *)
Definition silent {A : Type} (m : M A) : Prop :=
  forall st, st_w (m st).1 = st_w st.

(** The entries [listRepos] keeps: directories whose name the expression
    matches. *)
Definition listed (fi : FileInfo) : bool :=
  fi_IsDir fi && regexpMD5.MatchString (fi_Name fi).

Definition is_byte (b : Z) : Prop := 0 <= b < 256.

(** What the expression matches: a string with 32 consecutive lowercase
    hexadecimal characters somewhere in it. *)
Definition lowerHex (s : string) : Prop :=
  Forall (fun c => regexpMD5.isLowerHex c = true) (list_ascii_of_string s).

(** ** The example of the specification, and a sample of the outside world *)

(** A working directory with [a.txt], [sub/b.txt] and [.git/HEAD], checked
    out under the name [id] in the storage root. *)
Definition workdir (a b head : list Byte.byte) : Inode :=
  IDir 493 96 [ (".git", IDir 493 96 [("HEAD", IFile 420 head)]);
                ("a.txt", IFile 420 a);
                ("sub", IDir 493 64 [("b.txt", IFile 420 b)]) ].

Definition storage (id : string) (w : Inode) : Inode := IDir 493 128 [(id, w)].

Definition bytes_of (n : nat) : list Byte.byte := repeat Byte.x61 n.

Definition a_txt (id : string) : FileNode :=
  mkFileNode "file" "a.txt" 10 ("/repositories/" +:+ id +:+ "/files/a.txt") ∅.

Definition b_txt (id : string) : FileNode :=
  mkFileNode "file" "b.txt" 5 ("/repositories/" +:+ id +:+ "/files/sub/b.txt") ∅.

Definition sub_dir : FileNode := mkFileNode "dir" "sub" 64 "" ∅.

(** The tree the builder returns for the example. *)
Definition example_tree (id : string) : FileNode :=
  mkFileNode "dir" id 96 ""
    (<["b.txt" := b_txt id]> (<["sub" := sub_dir]> (<["a.txt" := a_txt id]> ∅))).

(** A source-control provider that succeeds with a fixed remote and leaves
    the filesystem alone, and a decoder that takes the body for the URL. *)
Definition sample_exec (fs : Inode) (dir : string) (argv : list string)
  : Inode * list Byte.byte * bool :=
  (fs, list_byte_of_string "git@example.org:launchmango/backend.git ", true).

Definition sample_decode (body : list Byte.byte) : string + Repository :=
  inr (mkRepository "" "" (string_of_list_byte body) None).

(** ** Properties of trees used further on *)

(** Every child is stored under its own name, at every level. *)
Definition keyed (b : FileNode) : Prop :=
  forall ks k n, nodeAt b (ks ++ [k])%list = Some n -> Name n = k.

(** [Q] holds of the node [b] and of every node below it. *)
Definition throughout (Q : FileNode -> Prop) (b : FileNode) : Prop :=
  forall ks n, nodeAt b ks = Some n -> Q n.

(** Neither the name nor the address of the node has [.git] in it. *)
Definition clear_of_git (n : FileNode) : Prop :=
  skipped (Name n) = false /\ skipped (URL n) = false.

(** A call of the visitor as a walk from [root] makes it: the path is the
    root followed by names of entries, and the file info, when there is
    one, carries the last of them. *)
Definition visit_of (root path : string) (f : option FileInfo) : Prop :=
  exists segs,
    forallb plain segs = true /\
    path = strings.Join (root :: segs) "/" /\
    forall fi, f = Some fi -> fi_Name fi = List.last segs root.

(** Every directory below [n] that can be listed can be searched, so that
    [lstat] succeeds on each entry a walk comes to. *)
Fixpoint examinable (n : Inode) : bool :=
  match n with
  | IFile _ _ => true
  | IDir m _ es =>
      negb (os.can_read m)
      || (os.can_search m && forallb (fun e => examinable (snd e)) es)
  end.

(** The tree without the contents of its files: names, modes, and sizes of
    directories. *)
Fixpoint shape (n : Inode) : Inode :=
  match n with
  | IFile m _ => IFile m []
  | IDir m sz es => IDir m sz (map (fun e => (fst e, shape (snd e))) es)
  end.

(** The command [gitRemote] runs. *)
Definition git_config : list string := ["git"; "config"; "--get"; "remote.origin.url"].

(** Every directory from [n] down may be listed, searched and written, as
    removing the entries below [n] takes. *)
Fixpoint removable (n : Inode) : bool :=
  match n with
  | IFile _ _ => true
  | IDir m _ es =>
      os.can_read m && os.can_search m && os.can_write m
      && forallb (fun e => removable (snd e)) es
  end.

(** The statuses a handler gives a response: none yet, 200 or 500 in the
    buffer, and 400 or 404 in the [HTTPError] it returns. *)
Definition buffered (o : option Z) : Prop :=
  o = None \/ o = Some StatusOK \/ o = Some StatusInternalServerError.

Definition answers {A : Type} (m : M A) : Prop :=
  forall st,
    buffered (rb_status (st_w st)) ->
    buffered (rb_status (st_w (m st).1)) /\
    forall status msg,
      (m st).2 = Returned (inl (HTTPError status msg)) ->
      status = StatusBadRequest \/ status = StatusNotFound.

(** The handlers [main] registers with the router (lines 227-236). *)
Definition routes (exec_run : Inode -> string -> list string -> Inode * list Byte.byte * bool)
    (json_Decode : list Byte.byte -> string + Repository) : list (Request -> M unit) :=
  [ createRepo exec_run json_Decode; listRepos exec_run; getRepo exec_run;
    deleteRepo; buildRepo exec_run; runRepo exec_run; getRepoFile; setRepoFile ].

(** * Strings: splitting, joining and searching *)

Lemma append_nil_l (s : string) : "" +:+ s = s.
Proof. reflexivity. Qed.

Lemma append_cons (c : ascii) (a b : string) : String c a +:+ b = String c (a +:+ b).
Proof. reflexivity. Qed.

Lemma append_nil_r (s : string) : s +:+ "" = s.
Proof. induction s as [|c s IH]; [reflexivity | now rewrite append_cons, IH]. Qed.

Lemma append_assoc (a b c : string) : (a +:+ b) +:+ c = a +:+ (b +:+ c).
Proof. induction a as [|x a IH]; [reflexivity | now rewrite !append_cons, IH]. Qed.

Lemma append_snoc (a : string) (c : ascii) (b : string) :
  (a +:+ String c "") +:+ b = a +:+ String c b.
Proof. now rewrite append_assoc. Qed.

Lemma split_from_slashfree (e field : string) :
  slashfree e = true ->
  strings.split_from field e slash = [field +:+ e].
Proof.
  revert field. induction e as [|c e IH]; intros field H; simpl in *.
  - now rewrite append_nil_r.
  - apply andb_prop in H as [Hc He].
    apply negb_true_iff in Hc. rewrite Hc.
    rewrite IH by assumption. now rewrite append_snoc.
Qed.

Lemma split_from_field (e field t : string) :
  slashfree e = true ->
  strings.split_from field (e +:+ String slash t) slash
  = (field +:+ e) :: strings.split_from "" t slash.
Proof.
  revert field. induction e as [|c e IH]; intros field H.
  - rewrite append_nil_l, append_nil_r. reflexivity.
  - simpl in H. apply andb_prop in H as [Hc He].
    apply negb_true_iff in Hc. rewrite append_cons. simpl. rewrite Hc.
    rewrite IH by assumption. now rewrite append_snoc.
Qed.

Lemma Join_cons (e e' : string) (rest : list string) :
  strings.Join (e :: e' :: rest) "/" = e +:+ String slash (strings.Join (e' :: rest) "/").
Proof. reflexivity. Qed.

Lemma Split_Join (segs : list string) :
  segs <> [] ->
  forallb slashfree segs = true ->
  strings.Split (strings.Join segs "/") slash = segs.
Proof.
  unfold strings.Split.
  induction segs as [|e rest IH]; intros Hne Hall; [congruence|].
  simpl in Hall. apply andb_prop in Hall as [He Hrest].
  destruct rest as [|e' rest].
  - simpl. now rewrite split_from_slashfree.
  - rewrite Join_cons, split_from_field by assumption.
    rewrite append_nil_l. f_equal. now apply IH.
Qed.

Lemma Join_snoc (segs : list string) (name : string) :
  segs <> [] ->
  strings.Join (segs ++ [name])%list "/" = strings.Join segs "/" +:+ "/" +:+ name.
Proof.
  induction segs as [|e rest IH]; intros Hne; [congruence|].
  destruct rest as [|e' rest]; [reflexivity|].
  change ((e :: e' :: rest) ++ [name])%list with (e :: e' :: (rest ++ [name])%list).
  change ((e' :: rest) ++ [name])%list with (e' :: (rest ++ [name])%list) in IH.
  rewrite !Join_cons. rewrite IH by congruence.
  now rewrite !append_assoc.
Qed.

Lemma plain_inv (s : string) :
  plain s = true ->
  slashfree s = true /\ s <> "" /\ s <> "." /\ s <> "..".
Proof.
  unfold plain. intros H.
  repeat (apply andb_prop in H as [H ?]).
  repeat split; trivial;
    match goal with
    | Hn : negb (String.eqb _ ?x) = true |- _ <> ?x =>
        apply negb_true_iff, String.eqb_neq in Hn; exact Hn
    end.
Qed.

Lemma forallb_plain_slashfree (segs : list string) :
  forallb plain segs = true -> forallb slashfree segs = true.
Proof.
  induction segs as [|e rest IH]; simpl; intros H; [reflexivity|].
  apply andb_prop in H as [He Hrest].
  apply plain_inv in He as [-> _]. now apply IH.
Qed.

Lemma clean_segs_plain (rooted : bool) (segs out : list string) :
  forallb plain segs = true ->
  filepath.clean_segs rooted out segs = (rev out ++ segs)%list.
Proof.
  revert out. induction segs as [|e rest IH]; intros out H; simpl.
  - now rewrite app_nil_r.
  - simpl in H. apply andb_prop in H as [He Hrest].
    apply plain_inv in He as (_ & H1 & H2 & H3).
    apply String.eqb_neq in H1, H2, H3. rewrite H1, H2, H3. simpl.
    rewrite IH by assumption. simpl. now rewrite <- app_assoc.
Qed.

Lemma Join_plain_head (e : string) (rest : list string) :
  plain e = true ->
  exists c t, strings.Join (e :: rest) "/" = String c t /\ Ascii.eqb c slash = false.
Proof.
  intros He. apply plain_inv in He as (Hs & Hne & _).
  destruct e as [|c e]; [congruence|].
  simpl in Hs. apply andb_prop in Hs as [Hc _]. apply negb_true_iff in Hc.
  destruct rest as [|e' rest].
  - exists c, e. now split.
  - rewrite Join_cons, append_cons. eauto.
Qed.

Lemma Clean_Join_plain (segs : list string) :
  segs <> [] ->
  forallb plain segs = true ->
  filepath.Clean (strings.Join segs "/") = strings.Join segs "/".
Proof.
  intros Hne Hall. unfold filepath.Clean.
  rewrite Split_Join by auto using forallb_plain_slashfree.
  rewrite clean_segs_plain by assumption. rewrite app_nil_l.
  destruct segs as [|e rest]; [congruence|].
  simpl in Hall. apply andb_prop in Hall as [He _].
  destruct (Join_plain_head e rest He) as (c & t & -> & Hc).
  unfold slash in Hc. simpl. now rewrite Hc.
Qed.

Lemma filepath_Join_plain (segs : list string) (name : string) :
  segs <> [] ->
  forallb plain segs = true ->
  plain name = true ->
  filepath.Join (strings.Join segs "/") name = strings.Join (segs ++ [name])%list "/".
Proof.
  intros Hne Hall Hname. unfold filepath.Join.
  destruct segs as [|e rest]; [congruence|].
  pose proof Hall as Hall'. simpl in Hall'. apply andb_prop in Hall' as [He _].
  destruct (Join_plain_head e rest He) as (c & t & Hj & Hc).
  rewrite Hj. simpl (String.eqb (String c t) "").
  apply plain_inv in Hname as Hn. destruct Hn as (_ & Hn & _).
  apply String.eqb_neq in Hn. rewrite Hn.
  rewrite <- Hj, <- Join_snoc by congruence.
  apply Clean_Join_plain.
  - destruct rest; discriminate.
  - rewrite forallb_app, Hall. simpl. now rewrite Hname.
Qed.

(** [.git] does not straddle a slash: a path contains it when one of the two
    sides of the slash does. *)
Lemma HasPrefix_git_slash (s t : string) :
  strings.HasPrefix (s +:+ String slash t) ".git" = strings.HasPrefix s ".git".
Proof.
  destruct s as [|c1 [|c2 [|c3 [|c4 s]]]]; rewrite ?append_cons, ?append_nil_l; simpl;
    repeat match goal with
           | |- context [Ascii.eqb ?c ?d] =>
               is_var c; destruct (Ascii.eqb c d); simpl
           end; reflexivity.
Qed.

Lemma skipped_slash (s t : string) :
  skipped (s +:+ String slash t) = skipped s || skipped t.
Proof.
  unfold skipped. induction s as [|c s IH].
  - rewrite append_nil_l. reflexivity.
  - change (strings.Contains (String c s +:+ String slash t) ".git")
      with (strings.HasPrefix (String c s +:+ String slash t) ".git"
            || strings.Contains (s +:+ String slash t) ".git").
    rewrite HasPrefix_git_slash, IH.
    change (strings.Contains (String c s) ".git")
      with (strings.HasPrefix (String c s) ".git" || strings.Contains s ".git").
    now rewrite orb_assoc.
Qed.

Lemma skipped_Join (segs : list string) :
  skipped (strings.Join segs "/") = existsb skipped segs.
Proof.
  induction segs as [|e rest IH]; [reflexivity|].
  destruct rest as [|e' rest].
  - simpl. now rewrite orb_false_r.
  - rewrite Join_cons, skipped_slash, IH. reflexivity.
Qed.

Lemma HasPrefix_append (p b : string) : strings.HasPrefix (p +:+ b) p = true.
Proof.
  induction p as [|c p IH]; [reflexivity|].
  rewrite append_cons. simpl. now rewrite Ascii.eqb_refl, IH.
Qed.

Lemma Contains_HasPrefix (s p : string) :
  strings.HasPrefix s p = true -> strings.Contains s p = true.
Proof. intros H. destruct s; simpl; now rewrite H. Qed.

Lemma Contains_append_l (a x p : string) :
  strings.Contains x p = true -> strings.Contains (a +:+ x) p = true.
Proof.
  intros H. induction a as [|c a IH]; [exact H|].
  rewrite append_cons. simpl. rewrite IH. apply orb_true_r.
Qed.

Lemma split_from_In (seg s field : string) :
  In seg (strings.split_from field s slash) ->
  exists a b, field +:+ s = a +:+ seg +:+ b.
Proof.
  revert field. induction s as [|c s IH]; intros field Hin; simpl in Hin.
  - destruct Hin as [<- | []]. exists "", "". now rewrite append_nil_l.
  - destruct (Ascii.eqb c slash).
    + destruct Hin as [<- | Hin].
      * exists "", (String c s). now rewrite append_nil_l.
      * apply IH in Hin as (a & b & Hab). rewrite append_nil_l in Hab.
        exists (field +:+ String c a), b.
        now rewrite Hab, append_assoc, append_cons.
    + apply IH in Hin as (a & b & Hab). exists a, b.
      now rewrite <- Hab, append_snoc.
Qed.

Lemma segment_skipped (path : string) :
  In ".git" (strings.Split path slash) -> skipped path = true.
Proof.
  intros Hin. apply split_from_In in Hin as (a & b & Hab).
  rewrite append_nil_l in Hab. subst path. unfold skipped.
  apply Contains_append_l, Contains_HasPrefix, HasPrefix_append.
Qed.

(** * The path classifier *)

(** C2, as the code has it: the classifier is a total function of the path
    and the is-directory flag; it answers Skip exactly for the paths that
    contain the text [.git] at some offset, which covers every path with a
    segment [.git] (the whole metadata subtree), Directory for every other
    directory and File for every other entry; the visitor leaves its state
    alone on a skipped path and makes a node of the classified type on any
    other. *)
Theorem C2_classifier (path : string) (isDir : bool) :
  (classify path isDir = Skip <-> strings.Contains path ".git" = true) /\
  (In ".git" (strings.Split path slash) -> classify path isDir = Skip) /\
  (strings.Contains path ".git" = false ->
     classify path isDir = if isDir then Directory else File) /\
  (forall repoID f err first,
     classify path isDir = Skip -> visitFunc repoID path f err first = Returned first) /\
  (forall repoID fi err,
     fi_IsDir fi = isDir -> classify path isDir <> Skip ->
     visitFunc repoID path (Some fi) err None
     = Returned (Some (mkFileNode (if isDir then "dir" else "file")
                         (fi_Name fi) (fi_Size fi) "" ∅))).
Proof.
  assert (Hskip : classify path isDir = Skip <-> strings.Contains path ".git" = true).
  { unfold classify, skipped.
    destruct (strings.Contains path ".git"), isDir; split; congruence. }
  split; [exact Hskip|]. split; [|split; [|split]].
  - intros Hin. apply Hskip. now apply segment_skipped.
  - intros H. unfold classify, skipped. now rewrite H.
  - intros repoID f err first H. apply Hskip in H.
    unfold visitFunc, skipped. now rewrite H.
  - intros repoID fi err Hd Hn. unfold visitFunc, classify in *.
    destruct (skipped path); [congruence|].
    rewrite Hd. now destruct isDir.
Qed.

(** C2 as stated fails: [.gitignore] is no segment [.git], and is skipped. *)
Lemma C2_counterexample :
  ~ (classify "r/.gitignore" false = Skip
     <-> In ".git" (strings.Split "r/.gitignore" slash)).
Proof.
  intros [H _]. specialize (H eq_refl). vm_compute in H.
  destruct H as [H | [H | []]]; discriminate.
Qed.

(** * Addresses of files *)

(** C3, as the code has it: for an entry that is not the first one visited,
    not skipped and not a directory, at the path made of the repository id
    and the segments [segs], the node the visitor makes and hands to the
    insertion is a File node whose address is
    [/repositories/{id}/files/{relativePath}], with the leading slash, the
    relative path being the segments joined by slashes. *)
Theorem C3_file_address (repoID : string) (segs : list string) (fi : FileInfo)
    (err : option Errno) (first : FileNode) :
  slashfree repoID = true ->
  forallb slashfree segs = true ->
  segs <> [] ->
  skipped (strings.Join (repoID :: segs) "/") = false ->
  fi_IsDir fi = false ->
  visitFunc repoID (strings.Join (repoID :: segs) "/") (Some fi) err (Some first)
  = (first' ← insertNode first (strings.Join (repoID :: segs) "/")
               (mkFileNode "file" (fi_Name fi) (fi_Size fi)
                  ("/repositories/" +:+ repoID +:+ "/files/" +:+ strings.Join segs "/") ∅);
     Returned (Some first')).
Proof.
  intros Hid Hsegs Hne Hskip Hfile.
  unfold visitFunc, classify. rewrite Hskip, Hfile.
  unfold addURL, fileURL, newNode.
  rewrite (Split_Join (repoID :: segs)); [reflexivity | discriminate |].
  simpl. now rewrite Hid, Hsegs.
Qed.

Lemma C3_file_address_witness :
  visitFunc "r" "r/sub/b.txt" (Some (mkFileInfo "b.txt" 5 420 false)) None
    (Some (mkFileNode "dir" "r" 96 "" ∅))
  = (first' ← insertNode (mkFileNode "dir" "r" 96 "" ∅) "r/sub/b.txt"
               (mkFileNode "file" "b.txt" 5 "/repositories/r/files/sub/b.txt" ∅);
     Returned (Some first')).
Proof.
  apply (C3_file_address "r" ["sub"; "b.txt"] (mkFileInfo "b.txt" 5 420 false) None);
    solve [reflexivity | discriminate].
Defined.

(** * The visitor on the paths of a walk *)

Lemma visitFunc_skipped (repoID : string) (segs : list string) (f : option FileInfo)
    (err : option Errno) (first : option FileNode) :
  existsb skipped segs = true ->
  visitFunc repoID (strings.Join segs "/") f err first = Returned first.
Proof. intros H. unfold visitFunc. now rewrite skipped_Join, H. Qed.

Lemma visitFunc_first (repoID path : string) (fi : FileInfo) (err : option Errno) :
  skipped path = false ->
  visitFunc repoID path (Some fi) err None
  = Returned (Some (newNode (if fi_IsDir fi then Directory else File) fi)).
Proof. intros H. unfold visitFunc, classify. now rewrite H. Qed.

Lemma visitFunc_Join (repoID : string) (segs : list string) (fi : FileInfo)
    (err : option Errno) (first : FileNode) :
  slashfree repoID = true ->
  forallb slashfree segs = true ->
  skipped repoID = false ->
  existsb skipped segs = false ->
  visitFunc repoID (strings.Join (repoID :: segs) "/") (Some fi) err (Some first)
  = let node :=
      if fi_IsDir fi then mkFileNode "dir" (fi_Name fi) (fi_Size fi) "" ∅
      else mkFileNode "file" (fi_Name fi) (fi_Size fi)
             ("/repositories/" +:+ repoID +:+ "/files/" +:+ strings.Join segs "/") ∅ in
    first' ← (if (length segs <=? 1)%nat
              then Returned (setChildren first (<[fi_Name fi := node]> (Children first)))
              else setDeepNode first (removelast segs) node);
    Returned (Some first').
Proof.
  intros Hid Hsegs Hskip Hs.
  unfold visitFunc, classify, insertNode, addURL, fileURL, newNode.
  rewrite skipped_Join. simpl existsb. rewrite Hskip, Hs. simpl orb. cbv iota.
  rewrite (Split_Join (repoID :: segs)) by (try discriminate; simpl; now rewrite Hid, Hsegs).
  destruct (fi_IsDir fi); reflexivity.
Qed.

(** * The example of the specification *)

Lemma plain_basename (id : string) : plain id = true -> os.basename id = id.
Proof.
  intros H. apply plain_inv in H as (Hs & Hne & _).
  unfold os.basename, strings.Split. rewrite split_from_slashfree by assumption.
  rewrite append_nil_l. simpl.
  apply String.eqb_neq in Hne. now rewrite Hne.
Qed.

Lemma loadRepoFiles_example (fs : Inode) (repo : Repository) (a b head : list Byte.byte) :
  plain (ID repo) = true ->
  skipped (ID repo) = false ->
  length a = 10%nat ->
  length b = 5%nat ->
  os.resolve fs (ID repo) = inr (workdir a b head) ->
  loadRepoFiles fs repo = Returned (setFiles repo (Some (example_tree (ID repo)))).
Proof.
  intros Hplain Hskip Ha Hb Hres.
  set (id := ID repo) in *.
  pose proof (plain_inv _ Hplain) as (Hsf & _).
  unfold loadRepoFiles, filepath.Walk. fold id. rewrite Hres.
  rewrite plain_basename by assumption.
  assert (E1 : filepath.Join id ".git" = strings.Join [id; ".git"] "/").
  { apply (filepath_Join_plain [id] ".git"); [discriminate | simpl; now rewrite Hplain | reflexivity]. }
  assert (E2 : filepath.Join (strings.Join [id; ".git"] "/") "HEAD"
               = strings.Join [id; ".git"; "HEAD"] "/").
  { apply (filepath_Join_plain [id; ".git"] "HEAD");
      [discriminate | simpl; now rewrite Hplain | reflexivity]. }
  assert (E3 : filepath.Join id "a.txt" = strings.Join [id; "a.txt"] "/").
  { apply (filepath_Join_plain [id] "a.txt"); [discriminate | simpl; now rewrite Hplain | reflexivity]. }
  assert (E4 : filepath.Join id "sub" = strings.Join [id; "sub"] "/").
  { apply (filepath_Join_plain [id] "sub"); [discriminate | simpl; now rewrite Hplain | reflexivity]. }
  assert (E5 : filepath.Join (strings.Join [id; "sub"] "/") "b.txt"
               = strings.Join [id; "sub"; "b.txt"] "/").
  { apply (filepath_Join_plain [id; "sub"] "b.txt");
      [discriminate | simpl; now rewrite Hplain | reflexivity]. }
  unfold workdir.
  cbn [filepath.walk os.fileInfoOf].
  change (os.can_read 493) with true. change (os.can_search 493) with true. cbv iota.
  rewrite E1, E2, E3, E4, E5, Ha, Hb.
  rewrite visitFunc_first by assumption. cbn [mbind Outcome_bind fi_IsDir].
  rewrite (visitFunc_skipped id [id; ".git"])
    by (simpl; rewrite Hskip; reflexivity).
  cbn [mbind Outcome_bind].
  rewrite (visitFunc_skipped id [id; ".git"; "HEAD"])
    by (simpl; rewrite Hskip; reflexivity).
  cbn [mbind Outcome_bind].
  rewrite (visitFunc_Join id ["a.txt"]) by (assumption || reflexivity).
  cbn [mbind Outcome_bind fi_IsDir fi_Name fi_Size length Nat.leb].
  rewrite (visitFunc_Join id ["sub"]) by (assumption || reflexivity).
  cbn [mbind Outcome_bind fi_IsDir fi_Name fi_Size length Nat.leb].
  rewrite (visitFunc_Join id ["sub"; "b.txt"]) by (assumption || reflexivity).
  cbn [mbind Outcome_bind fi_IsDir fi_Name fi_Size length Nat.leb removelast].
  cbn [setDeepNode setChildren newNode Children Name Type_ Size URL fileType].
  rewrite lookup_insert_eq.
  reflexivity.
Qed.

(** C1, as the code has it, for a repository id that is a plain name
    without [.git] in it: the build returns a root Directory node whose
    children contain [a.txt] (a File of size 10 with address
    [/repositories/{id}/files/a.txt], with the leading slash) and [sub] (a
    Directory); a File node [b.txt] of size 5 with address
    [/repositories/{id}/files/sub/b.txt] is in the result; and the nodes
    below the root are those of [a.txt], [sub] and [b.txt] only, none
    derived from [.git]. *)
Theorem C1_example_build (fs : Inode) (repo : Repository) (a b head : list Byte.byte) :
  plain (ID repo) = true ->
  skipped (ID repo) = false ->
  length a = 10%nat ->
  length b = 5%nat ->
  os.resolve fs (ID repo) = inr (workdir a b head) ->
  exists root sub,
    loadRepoFiles fs repo = Returned (setFiles repo (Some root)) /\
    Type_ root = "dir" /\
    Children root !! "a.txt"
    = Some (mkFileNode "file" "a.txt" 10
              ("/repositories/" +:+ ID repo +:+ "/files/a.txt") ∅) /\
    Children root !! "sub" = Some sub /\ Type_ sub = "dir" /\
    (exists keys,
       nodeAt root keys
       = Some (mkFileNode "file" "b.txt" 5
                 ("/repositories/" +:+ ID repo +:+ "/files/sub/b.txt") ∅)) /\
    (forall keys n,
       keys <> [] -> nodeAt root keys = Some n ->
       Name n = "a.txt" \/ Name n = "sub" \/ Name n = "b.txt").
Proof.
  intros Hplain Hskip Ha Hb Hres.
  exists (example_tree (ID repo)), sub_dir.
  split; [now apply loadRepoFiles_example with a b head|].
  unfold example_tree. cbn [Type_ Children].
  split; [reflexivity|].
  split; [now rewrite !lookup_insert_ne by discriminate; rewrite lookup_insert_eq|].
  split; [now rewrite lookup_insert_ne by discriminate; rewrite lookup_insert_eq|].
  split; [reflexivity|].
  split.
  - exists ["b.txt"]. cbn [nodeAt Children]. now rewrite lookup_insert_eq.
  - intros [|k rest] n Hne Hn; [congruence|]. cbn [nodeAt Children] in Hn.
    assert (Hleaf : forall v, Children v = ∅ -> nodeAt v rest = Some n -> Name n = Name v).
    { intros v Hv Hr. destruct rest as [|k' rest]; cbn [nodeAt] in Hr.
      - congruence.
      - rewrite Hv, lookup_empty in Hr. discriminate. }
    destruct (decide (k = "b.txt")) as [->|Hk1].
    { rewrite lookup_insert_eq in Hn. apply Hleaf in Hn; [|reflexivity]. now right; right. }
    rewrite lookup_insert_ne in Hn by congruence.
    destruct (decide (k = "sub")) as [->|Hk2].
    { rewrite lookup_insert_eq in Hn. apply Hleaf in Hn; [|reflexivity]. now right; left. }
    rewrite lookup_insert_ne in Hn by congruence.
    destruct (decide (k = "a.txt")) as [->|Hk3].
    { rewrite lookup_insert_eq in Hn. apply Hleaf in Hn; [|reflexivity]. now left. }
    rewrite lookup_insert_ne, lookup_empty in Hn by congruence. discriminate.
Qed.

Lemma C1_example_build_witness :
  exists root sub,
    loadRepoFiles (storage "r" (workdir (bytes_of 10) (bytes_of 5) (bytes_of 3)))
      (mkRepository "r" "backend" "git@example.org:backend.git" None)
    = Returned (mkRepository "r" "backend" "git@example.org:backend.git" (Some root)) /\
    Type_ root = "dir" /\
    Children root !! "a.txt"
    = Some (mkFileNode "file" "a.txt" 10 "/repositories/r/files/a.txt" ∅) /\
    Children root !! "sub" = Some sub /\ Type_ sub = "dir" /\
    (exists keys,
       nodeAt root keys
       = Some (mkFileNode "file" "b.txt" 5 "/repositories/r/files/sub/b.txt" ∅)) /\
    (forall keys n,
       keys <> [] -> nodeAt root keys = Some n ->
       Name n = "a.txt" \/ Name n = "sub" \/ Name n = "b.txt").
Proof.
  apply (C1_example_build (storage "r" (workdir (bytes_of 10) (bytes_of 5) (bytes_of 3)))
           (mkRepository "r" "backend" "git@example.org:backend.git" None)
           (bytes_of 10) (bytes_of 5) (bytes_of 3)); reflexivity.
Defined.

(** C1 as stated fails on the example: the children of [sub] do not contain
    [b.txt], which [setDeepNode] stores one level up, in the root; and the
    address of [a.txt] is not the one of the claim, it starts with a slash. *)
Lemma C1_counterexample :
  exists root sub,
    loadRepoFiles (storage "r" (workdir (bytes_of 10) (bytes_of 5) (bytes_of 3)))
      (mkRepository "r" "" "" None)
    = Returned (mkRepository "r" "" "" (Some root)) /\
    Children root !! "sub" = Some sub /\
    Children sub !! "b.txt" = None /\
    is_Some (Children root !! "b.txt") /\
    Children root !! "a.txt"
    <> Some (mkFileNode "file" "a.txt" 10 "repositories/r/files/a.txt" ∅).
Proof.
  exists (example_tree "r"), sub_dir.
  split; [now apply loadRepoFiles_example with (bytes_of 10) (bytes_of 5) (bytes_of 3)|].
  unfold example_tree. cbn [Children].
  split; [now rewrite lookup_insert_ne by discriminate; rewrite lookup_insert_eq|].
  split; [reflexivity|].
  split; [rewrite lookup_insert_eq; eauto|].
  rewrite !lookup_insert_ne by discriminate. rewrite lookup_insert_eq.
  intros H. discriminate H.
Qed.

(** C3 as stated fails: the address of [a.txt] in repository [r] is
    [/repositories/r/files/a.txt], not [repositories/r/files/a.txt]. *)
Lemma C3_counterexample :
  exists first',
    visitFunc "r" "r/a.txt" (Some (mkFileInfo "a.txt" 10 420 false)) None
      (Some (mkFileNode "dir" "r" 96 "" ∅))
    = Returned (Some first') /\
    (URL <$> Children first' !! "a.txt") = Some "/repositories/r/files/a.txt" /\
    (URL <$> Children first' !! "a.txt") <> Some "repositories/r/files/a.txt".
Proof.
  eexists. split; [reflexivity|]. split; [reflexivity|]. discriminate.
Qed.

(** * What a walk keeps *)

Lemma keeps_bind {S : Type} (I : S -> Prop) (o : Outcome S) (k : S -> Outcome S) :
  keeps I o -> (forall st, I st -> keeps I (k st)) -> keeps I (o ≫= k).
Proof. destruct o; simpl; auto. Qed.

Lemma walk_keeps {S : Type} (walkFn : string -> option FileInfo -> option Errno -> S -> Outcome S)
    (I : S -> Prop) :
  (forall path f err st, I st -> keeps I (walkFn path f err st)) ->
  forall n path info st, I st -> keeps I (filepath.walk walkFn path info n st).
Proof.
  intros Hstep n. induction n as [m data | m sz es IH] using Inode_nested_ind;
    intros path info st Hst; cbn [filepath.walk].
  - now apply Hstep.
  - destruct (os.can_read m); [|now apply Hstep].
    apply keeps_bind; [now apply Hstep|]. clear st Hst.
    induction IH as [| [name child] rest Hchild _ IHrest]; intros st Hst.
    + exact Hst.
    + apply keeps_bind; [|exact IHrest].
      destruct (os.can_search m); [now apply Hchild | now apply Hstep].
Qed.

Lemma setDeepNode_same_entry (keys : list string) (f b : FileNode) :
  keeps (fun b' => same_entry b' b) (setDeepNode b keys f).
Proof.
  revert b. induction keys as [|k rest IH]; intros b; cbn [setDeepNode]; [exact I|].
  destruct (Children b !! k) as [v|], rest as [|k' rest];
    try (cbn; repeat split; reflexivity).
  specialize (IH v). destruct (setDeepNode v (k' :: rest) f); cbn; [|exact I].
  repeat split; reflexivity.
Qed.


Lemma walk_dir {S : Type}
    (walkFn : string -> option FileInfo -> option Errno -> S -> Outcome S)
    (path : string) (info : FileInfo) (m sz : Z) (es : list (string * Inode)) (st : S) :
  filepath.walk walkFn path info (IDir m sz es) st
  = if os.can_read m
    then st1 ← walkFn path (Some info) None st; walk_entries walkFn m path es st1
    else walkFn path (Some info) (Some EACCES) st.
Proof. reflexivity. Qed.


(** A walk of a tree whose entries have plain names calls the visitor only
    on paths made of the root and names of entries, joined by slashes: two
    visitors that agree on these paths give the same walk. *)
Lemma walk_under {S : Type} (root : string)
    (f g : string -> option FileInfo -> option Errno -> S -> Outcome S) :
  plain root = true ->
  (forall path fi err st, under root path -> f path fi err st = g path fi err st) ->
  forall n path info st,
    plain_names n = true -> under root path ->
    filepath.walk f path info n st = filepath.walk g path info n st.
Proof.
  intros Hroot Hfg n. induction n as [m data | m sz es IH] using Inode_nested_ind;
    intros path info st Hwf Hpath.
  - cbn [filepath.walk]. now apply Hfg.
  - rewrite !walk_dir. rewrite !(Hfg path) by assumption.
    destruct (os.can_read m); [|reflexivity].
    destruct (g path (Some info) None st) as [st1|]; [|reflexivity].
    cbn [mbind Outcome_bind]. cbn [plain_names] in Hwf. clear st. revert st1.
    induction IH as [| [name child] rest Hchild _ IHrest]; intros st; [reflexivity|].
    cbn [forallb fst snd] in Hwf. apply andb_prop in Hwf as [Hhd Hrest].
    apply andb_prop in Hhd as [Hname Hchildwf].
    assert (Hunder : under root (filepath.Join path name)).
    { destruct Hpath as (segs & Hsegs & ->). exists (segs ++ [name])%list. split.
      - rewrite forallb_app, Hsegs. cbn. now rewrite Hname.
      - rewrite (filepath_Join_plain (root :: segs) name);
          [reflexivity | discriminate | cbn; now rewrite Hroot | assumption]. }
    cbn [walk_entries]. cbv zeta.
    rewrite (Hchild (filepath.Join path name) _ st Hchildwf Hunder).
    rewrite (Hfg (filepath.Join path name)) by assumption.
    destruct (if os.can_search m then _ else _) as [st'|]; [|reflexivity].
    cbn [mbind Outcome_bind]. now apply IHrest.
Qed.

(** * Failure of a build *)




(** The other half of C4 fails as well: the root can be read, an entry
    below it cannot be examined, and the build panics instead of producing a
    full tree. *)
Example build_panics_below_root :
  loadRepoFiles (storage "r" (IDir 256 96 [("a.txt", IFile 420 [])]))
    (mkRepository "r" "" "" None) = Panicked.
Proof. reflexivity. Qed.

(** * Identifiers *)

Lemma bytes_of_word_bytes (x : Z) : Forall is_byte (md5.bytes_of_word x).
Proof.
  unfold md5.bytes_of_word, is_byte.
  repeat constructor; apply Z.mod_pos_bound; lia.
Qed.

Lemma Sum_bytes (msg : list Z) :
  length (md5.Sum msg) = 16%nat /\ Forall is_byte (md5.Sum msg).
Proof.
  unfold md5.Sum.
  destruct (md5.blocks _ _ _) as [[[a b] c] d].
  split; [reflexivity|].
  repeat (apply Forall_app; split); apply bytes_of_word_bytes.
Qed.

Lemma hexdigit_lower (n : Z) :
  0 <= n < 16 -> regexpMD5.isLowerHex (hexdigit n) = true.
Proof.
  intros H.
  assert (Hn : exists k : nat, (k < 16)%nat /\ n = Z.of_nat k).
  { exists (Z.to_nat n). lia. }
  destruct Hn as (k & Hk & ->).
  do 16 (destruct k as [|k]; [reflexivity|]). lia.
Qed.

Lemma sprintf_x_length (bs : list Z) :
  String.length (sprintf_x bs) = (2 * length bs)%nat.
Proof. induction bs as [|b bs IH]; simpl; [reflexivity | rewrite IH; lia]. Qed.

Lemma sprintf_x_lower (bs : list Z) :
  Forall is_byte bs ->
  Forall (fun c => regexpMD5.isLowerHex c = true) (list_ascii_of_string (sprintf_x bs)).
Proof.
  induction 1 as [|b bs Hb _ IH]; simpl; [constructor|].
  unfold is_byte in Hb.
  constructor; [apply hexdigit_lower; split; [apply Z.div_pos | apply Z.div_lt_upper_bound]; lia|].
  constructor; [apply hexdigit_lower, Z.mod_pos_bound; lia | exact IH].
Qed.

Lemma matchHere_lower (n : nat) (s : string) :
  (n <= String.length s)%nat ->
  Forall (fun c => regexpMD5.isLowerHex c = true) (list_ascii_of_string s) ->
  regexpMD5.matchHere n s = true.
Proof.
  revert s. induction n as [|n IH]; intros s Hlen Hall; [reflexivity|].
  destruct s as [|c s]; simpl in *; [lia|].
  inversion Hall as [|? ? Hc Hs]; subst. rewrite Hc. apply IH; [lia | exact Hs].
Qed.

Lemma MatchString_here (s : string) :
  regexpMD5.matchHere 32 s = true -> regexpMD5.MatchString s = true.
Proof. intros H. destruct s; unfold regexpMD5.MatchString; now rewrite H. Qed.

(** C9: [md5String] is a function of the URL, so equal URLs have equal
    identifiers, and for every URL the identifier has exactly 32 characters,
    each a lowercase hexadecimal digit; the expression [regexpMD5] matches
    it. *)
Theorem C9_md5String (url : string) :
  (forall url', url' = url -> md5String url' = md5String url) /\
  String.length (md5String url) = 32%nat /\
  Forall (fun c => regexpMD5.isLowerHex c = true) (list_ascii_of_string (md5String url)) /\
  regexpMD5.MatchString (md5String url) = true.
Proof.
  destruct (Sum_bytes (bytes_of_string url)) as [Hlen Hbytes].
  assert (H32 : String.length (md5String url) = 32%nat).
  { unfold md5String. rewrite sprintf_x_length, Hlen. reflexivity. }
  assert (Hhex : Forall (fun c => regexpMD5.isLowerHex c = true)
                   (list_ascii_of_string (md5String url))).
  { unfold md5String. now apply sprintf_x_lower. }
  split; [now intros url' ->|]. split; [exact H32|]. split; [exact Hhex|].
  apply MatchString_here, matchHere_lower; [lia | exact Hhex].
Qed.

Example md5String_empty : md5String "" = "d41d8cd98f00b204e9800998ecf8427e".
Proof. vm_compute. reflexivity. Qed.

Example md5String_abc : md5String "abc" = "900150983cd24fb0d6963f7d28e17f72".
Proof. vm_compute. reflexivity. Qed.

Example md5String_two_blocks :
  md5String "aaaaaaaaaaaaaaaaaaaaaaaaaaaaaaaaaaaaaaaaaaaaaaaaaaaaaaaaaaaaaaaa"
  = "014842d480b571495a4a0363793f7367".
Proof. vm_compute. reflexivity. Qed.

(** * The handlers *)

(** C5: when the identifier computed from the URL of a create request
    names a path that exists in the storage root, the request is answered
    400 with the message "repo already exists", a client error; no command
    is run, so nothing is cloned, and the filesystem is as it was. *)
Theorem C5_create_existing
    (exec_run : Inode -> string -> list string -> Inode * list Byte.byte * bool)
    (json_Decode : list Byte.byte -> string + Repository)
    (r : Request) (repo : Repository) (info : FileInfo)
    (fs : Inode) (ran : list Command) :
  json_Decode (Body r) = inr repo ->
  RURL repo <> "" ->
  os.Stat fs ("./" +:+ md5String (RURL repo)) = inr info ->
  ServeHTTP (createRepo exec_run json_Decode) r fs ran
  = (fs, ran, mkResponse 400 [JSONError 400 "repo already exists"])
  /\ 400 <= resp_status (ServeHTTP (createRepo exec_run json_Decode) r fs ran).2 < 500.
Proof.
  intros Hdec Hurl Hstat.
  assert (E : ServeHTTP (createRepo exec_run json_Decode) r fs ran
              = (fs, ran, mkResponse 400 [JSONError 400 "repo already exists"])).
  { unfold ServeHTTP, createRepo. rewrite Hdec.
    apply String.eqb_neq in Hurl. rewrite Hurl.
    unfold bind, get_fs, fileExists. cbn [ID st_fs]. now rewrite Hstat. }
  split; [exact E|]. rewrite E. cbn. lia.
Qed.


Lemma C5_create_existing_witness :
  ServeHTTP (createRepo sample_exec sample_decode)
    (mkRequest "" "" (list_byte_of_string "abc"))
    (storage "900150983cd24fb0d6963f7d28e17f72" (workdir [] [] [])) []
  = (storage "900150983cd24fb0d6963f7d28e17f72" (workdir [] [] []), [],
     mkResponse 400 [JSONError 400 "repo already exists"]).
Proof.
  refine (proj1 (C5_create_existing sample_exec sample_decode
                   (mkRequest "" "" (list_byte_of_string "abc"))
                   (mkRepository "" "" "abc" None)
                   (mkFileInfo "900150983cd24fb0d6963f7d28e17f72" 96 493 true)
                   (storage "900150983cd24fb0d6963f7d28e17f72" (workdir [] [] [])) []
                   _ _ _)).
  - reflexivity.
  - discriminate.
  - vm_compute. reflexivity.
Defined.


(** * Writing a file and reading it back *)

Lemma lookup_set_entry (s : string) (n n' : Inode) (es : list (string * Inode)) :
  os.lookup_entry s es = Some n ->
  os.lookup_entry s (os.set_entry s n' es) = Some n'.
Proof.
  induction es as [| [k v] rest IH]; simpl; [discriminate|].
  destruct (String.eqb k s) eqn:E; simpl; rewrite E; auto.
Qed.

Lemma write_at_dir (segs : list string) (m sz perm : Z) (es : list (string * Inode))
    (data : list Byte.byte) (fs' : Inode) :
  os.write_at (IDir m sz es) segs data perm = inr fs' ->
  exists es', fs' = IDir m sz es'.
Proof.
  induction segs as [|s rest IH]; cbn [os.write_at]; [discriminate|].
  destruct (String.eqb s ""); [exact IH|].
  destruct (negb (os.can_search m)); [discriminate|].
  destruct (String.eqb s "."); [exact IH|].
  destruct (os.lookup_entry s es) as [n|].
  - destruct (os.write_at n rest data perm); [discriminate|].
    intros [= <-]. eauto.
  - destruct rest; [|discriminate].
    destruct (os.can_write m); [|discriminate]. intros [= <-]. eauto.
Qed.

Lemma write_at_namei (segs : list string) (fs : Inode) (m perm : Z)
    (old data : list Byte.byte) :
  os.namei fs segs = inr (IFile m old) ->
  os.can_write m = true ->
  exists fs', os.write_at fs segs data perm = inr fs' /\
              os.namei fs' segs = inr (IFile m data).
Proof.
  revert fs. induction segs as [|s rest IH]; intros fs Hn Hw.
  - cbn [os.namei] in Hn. injection Hn as ->. cbn [os.write_at]. rewrite Hw. eauto.
  - destruct fs as [m' d | m' sz es]; [discriminate|].
    cbn [os.namei] in Hn. cbn [os.write_at].
    destruct (String.eqb s "") eqn:E1.
    { destruct (IH _ Hn Hw) as (fs' & Hwr & Hn').
      destruct (write_at_dir _ _ _ _ _ _ _ Hwr) as (es' & ->).
      exists (IDir m' sz es'). split; [exact Hwr|].
      cbn [os.namei]. now rewrite E1. }
    destruct (negb (os.can_search m')) eqn:E2; [discriminate|].
    destruct (String.eqb s ".") eqn:E3.
    { destruct (IH _ Hn Hw) as (fs' & Hwr & Hn').
      destruct (write_at_dir _ _ _ _ _ _ _ Hwr) as (es' & ->).
      exists (IDir m' sz es'). split; [exact Hwr|].
      cbn [os.namei]. now rewrite E1, E2, E3. }
    destruct (os.lookup_entry s es) as [n|] eqn:El; [|discriminate].
    destruct (IH _ Hn Hw) as (n' & Hwr & Hn'). rewrite Hwr.
    exists (IDir m' sz (os.set_entry s n' es)). split; [reflexivity|].
    cbn [os.namei]. rewrite E1, E2, E3.
    now rewrite (lookup_set_entry s n n' es El).
Qed.

(** C8, as the code has it: for a path that names a regular file the server
    may read and write, a PUT of the bytes [B] is answered 200 with an empty
    body, and a GET of the same path on the filesystem it leaves is
    answered 200 with exactly [B]. *)
Theorem C8_put_then_get (id path : string) (B body' : list Byte.byte)
    (m : Z) (old : list Byte.byte) (fs : Inode) (ran : list Command) :
  os.resolve fs (id +:+ "/" +:+ path) = inr (IFile m old) ->
  os.can_read m = true ->
  os.can_write m = true ->
  exists fs',
    ServeHTTP setRepoFile (mkRequest id path B) fs ran = (fs', ran, mkResponse 200 []) /\
    ServeHTTP getRepoFile (mkRequest id path body') fs' ran
    = (fs', ran, mkResponse 200 [Raw B]).
Proof.
  intros Hres Hr Hw.
  destruct (write_at_namei _ fs m m old B Hres Hw) as (fs' & Hwr & Hn').
  exists fs'. split.
  - unfold ServeHTTP, setRepoFile, bind, get_fs, os.Open, ioutil.WriteFile.
    cbn [st_fs vars_id vars_path Body]. rewrite Hres. cbn [os.inode_mode].
    rewrite Hr. cbn [os.inode_mode]. now rewrite Hwr.
  - unfold ServeHTTP, getRepoFile, bind, get_fs, os.Open, os.resolve.
    cbn [st_fs vars_id vars_path]. rewrite Hn'. cbn [os.inode_mode].
    now rewrite Hr.
Qed.

Lemma C8_put_then_get_witness :
  exists fs',
    ServeHTTP setRepoFile (mkRequest "r" "sub/b.txt" (list_byte_of_string "new"))
      (storage "r" (workdir (bytes_of 10) (bytes_of 5) [])) []
    = (fs', [], mkResponse 200 []) /\
    ServeHTTP getRepoFile (mkRequest "r" "sub/b.txt" []) fs' []
    = (fs', [], mkResponse 200 [Raw (list_byte_of_string "new")]).
Proof.
  apply (C8_put_then_get "r" "sub/b.txt" (list_byte_of_string "new") [] 420 (bytes_of 5));
    reflexivity.
Defined.

(** C8 as stated fails: [a.txt] exists and can be read but not written
    (mode 0444); the PUT is answered 200 and changes nothing, and the GET
    returns the old bytes, not the bytes that were put. *)
Lemma C8_counterexample :
  let fs := storage "r" (IDir 493 96 [("a.txt", IFile 292 (list_byte_of_string "old"))]) in
  ServeHTTP setRepoFile (mkRequest "r" "a.txt" (list_byte_of_string "new")) fs []
  = (fs, [], mkResponse 200 []) /\
  ServeHTTP getRepoFile (mkRequest "r" "a.txt" []) fs []
  = (fs, [], mkResponse 200 [Raw (list_byte_of_string "old")]) /\
  list_byte_of_string "old" <> list_byte_of_string "new".
Proof. repeat split. discriminate. Qed.

(** * The existence test *)

Lemma no404_ret {A : Type} (a : A) : no404 (ret a).
Proof. intros st H. split; [exact H | discriminate]. Qed.

Lemma no404_fail {A : Type} (e : error) :
  (forall msg, e <> HTTPError StatusNotFound msg) -> no404 (@fail A e).
Proof. intros He st H. split; [exact H|]. intros msg [= E]. now apply (He msg). Qed.

Lemma no404_lift {A : Type} (o : Outcome A) : no404 (lift o).
Proof. intros st H. destruct o; (split; [exact H | discriminate]). Qed.

Lemma no404_bind {A B : Type} (m : M A) (k : A -> M B) :
  no404 m -> (forall a, no404 (k a)) -> no404 (bind m k).
Proof.
  intros Hm Hk st H. unfold bind. destruct (Hm st H) as [H1 H2].
  destruct (m st) as [st' [[e|a]|]]; cbn [fst snd] in *.
  - split; [exact H1|]. intros msg E. apply (H2 msg). congruence.
  - now apply Hk.
  - split; [exact H1 | discriminate].
Qed.

Lemma no404_get_fs : no404 get_fs.
Proof. intros st H. split; [exact H | discriminate]. Qed.

Lemma no404_put_fs (fs : Inode) : no404 (put_fs fs).
Proof. intros st H. split; [exact H | discriminate]. Qed.

Lemma no404_Write (c : Chunk) : no404 (Write c).
Proof. intros st H. split; [exact H | discriminate]. Qed.

Lemma no404_WriteHeader (status : Z) :
  status <> StatusNotFound -> no404 (WriteHeader status).
Proof. intros Hs st H. split; [cbn; congruence | discriminate]. Qed.

Lemma no404_renderJSON (status : Z) (v : Chunk) :
  status <> StatusNotFound -> no404 (renderJSON status v).
Proof.
  intros Hs. apply no404_bind; [now apply no404_WriteHeader | intros _; apply no404_Write].
Qed.

Section ExistenceTest.
Variable exec_run : Inode -> string -> list string -> Inode * list Byte.byte * bool.
Variable json_Decode : list Byte.byte -> string + Repository.

Lemma no404_run (dir : string) (argv : list string) : no404 (run exec_run dir argv).
Proof.
  intros st H. unfold run. destruct (exec_run (st_fs st) dir argv) as [[fs' out] ok].
  split; [exact H | discriminate].
Qed.

Lemma no404_spawn (argv : list string) : no404 (spawn argv).
Proof. intros st H. split; [exact H | discriminate]. Qed.

Lemma no404_runCmd (argv : list string) : no404 (runCmd exec_run argv).
Proof.
  apply no404_bind; [apply no404_run|]. intros [out [|]];
    [apply no404_ret | apply no404_fail; discriminate].
Qed.

Lemma no404_gitRemote (repoPath : string) : no404 (gitRemote exec_run repoPath).
Proof.
  apply no404_bind; [apply no404_run|]. intros [out [|]];
    [apply no404_ret | apply no404_fail; discriminate].
Qed.

Lemma no404_repoName (repoPath : string) : no404 (repoName exec_run repoPath).
Proof. apply no404_bind; [apply no404_gitRemote | intros; apply no404_ret]. Qed.

Lemma no404_loadRepo (repo : Repository) : no404 (loadRepo repo).
Proof. apply no404_bind; [apply no404_get_fs | intros; apply no404_lift]. Qed.

(** Past the existence test, no handler comes back to 404. *)
Lemma existing_no404 (h : Request -> M unit) (k : M unit) (r : Request) (st : State) :
  no404 k ->
  h r st = k st ->
  rb_status (st_w st) <> Some StatusNotFound ->
  rb_status (st_w (h r st).1) <> Some StatusNotFound /\
  forall msg, (h r st).2 <> Returned (inl (HTTPError StatusNotFound msg)).
Proof. intros Hk -> H. now apply Hk. Qed.

Lemma ServeHTTP_no404 (h : Request -> M unit) (r : Request) (fs : Inode) (ran : list Command) :
  (let st := mkState fs ran (mkResponseBuffer None []) in
   rb_status (st_w (h r st).1) <> Some StatusNotFound /\
   forall msg, (h r st).2 <> Returned (inl (HTTPError StatusNotFound msg))) ->
  resp_status (ServeHTTP h r fs ran).2 <> StatusNotFound.
Proof.
  cbv zeta. unfold ServeHTTP.
  destruct (h r _) as [st' [[[status msg | e | ] | a] | ]]; cbn; intros [H1 H2];
    try discriminate.
  - intros ->. now apply (H2 msg).
  - destruct (rb_status (st_w st')); cbn; [congruence | discriminate].
Qed.

Lemma fileExists_false (fs : Inode) (name : string) :
  fileExists fs name = false <-> os.Stat fs ("./" +:+ name) = inl ENOENT.
Proof.
  unfold fileExists. destruct (os.Stat fs ("./" +:+ name)) as [[]|info]; cbn;
    split; congruence.
Qed.

(** C10: [fileExists] answers false only when [os.Stat] reports that the
    path does not exist; on any other error of [os.Stat] it answers true,
    and then none of the fetch, delete, build and run handlers answers 404
    for that id, and a create request whose identifier is that name is
    rejected with "repo already exists". *)
Theorem C10_existence_test (fs : Inode) (name : string) :
  (fileExists fs name = false <-> os.Stat fs ("./" +:+ name) = inl ENOENT) /\
  (forall e,
     os.Stat fs ("./" +:+ name) = inl e -> e <> ENOENT ->
     fileExists fs name = true /\
     (forall r ran,
        vars_id r = name ->
        resp_status (ServeHTTP (getRepo exec_run) r fs ran).2 <> StatusNotFound /\
        resp_status (ServeHTTP deleteRepo r fs ran).2 <> StatusNotFound /\
        resp_status (ServeHTTP (buildRepo exec_run) r fs ran).2 <> StatusNotFound /\
        resp_status (ServeHTTP (runRepo exec_run) r fs ran).2 <> StatusNotFound) /\
     (forall r ran repo,
        json_Decode (Body r) = inr repo -> RURL repo <> "" ->
        md5String (RURL repo) = name ->
        ServeHTTP (createRepo exec_run json_Decode) r fs ran
        = (fs, ran, mkResponse 400 [JSONError 400 "repo already exists"]))).
Proof.
  split; [apply fileExists_false|].
  intros e He Hne.
  assert (Hex : fileExists fs name = true).
  { unfold fileExists. rewrite He. now destruct e. }
  split; [exact Hex|]. split.
  - intros r ran <-.
    repeat split; apply ServeHTTP_no404; cbv zeta.
    + eapply existing_no404; [| |discriminate].
      2:{ unfold getRepo, bind at 1, get_fs. cbn [st_fs]. rewrite Hex. cbn [negb].
          reflexivity. }
      apply no404_bind; [apply no404_gitRemote|]. intros remote.
      apply no404_bind; [apply no404_repoName|]. intros nm.
      apply no404_bind; [apply no404_loadRepo|]. intros repo.
      now apply no404_renderJSON.
    + eapply existing_no404; [| |discriminate].
      2:{ unfold deleteRepo, bind at 1, get_fs. cbn [st_fs]. rewrite Hex. cbn [negb].
          reflexivity. }
      destruct (os.RemoveAll fs (vars_id r)) as [fs' [e'|]];
        [apply no404_fail; discriminate | apply no404_put_fs].
    + eapply existing_no404; [| |discriminate].
      2:{ unfold buildRepo, bind at 1, get_fs. cbn [st_fs]. rewrite Hex. cbn [negb].
          reflexivity. }
      apply no404_bind; [apply no404_run|]. intros [out ok].
      apply no404_bind; [apply no404_Write|]. intros _.
      destruct ok; [apply no404_ret | now apply no404_WriteHeader].
    + eapply existing_no404; [| |discriminate].
      2:{ unfold runRepo, bind at 1, get_fs. cbn [st_fs]. rewrite Hex. cbn [negb].
          reflexivity. }
      apply no404_bind; [apply no404_spawn|]. intros _.
      apply no404_bind; [apply no404_run|]. intros [out [|]];
        [apply no404_ret | apply no404_fail; discriminate].
  - intros r ran repo Hdec Hurl <-.
    unfold ServeHTTP, createRepo. rewrite Hdec.
    apply String.eqb_neq in Hurl. rewrite Hurl.
    unfold bind, get_fs. cbn [ID st_fs]. now rewrite Hex.
Qed.

End ExistenceTest.

Example fileExists_permission_denied :
  os.Stat (IDir 384 128 [("r", IDir 493 96 [])]) "./r" = inl EACCES /\
  fileExists (IDir 384 128 [("r", IDir 493 96 [])]) "r" = true /\
  fileExists (IDir 493 128 [("r", IDir 493 96 [])]) "gone" = false.
Proof. repeat split. Qed.

(** * Enumeration *)

Lemma loadRepoFiles_ID (fs : Inode) (repo repo' : Repository) :
  loadRepoFiles fs repo = Returned repo' -> ID repo' = ID repo.
Proof.
  unfold loadRepoFiles. destruct (filepath.Walk _ _ _ _); cbn; [|discriminate].
  now intros [= <-].
Qed.

Section Enumeration.
Variable exec_run : Inode -> string -> list string -> Inode * list Byte.byte * bool.

Lemma listRepos_loop_IDs (fis : list FileInfo) (repos repos' : list Repository)
    (st st' : State) :
  listRepos_loop exec_run fis repos st = (st', Returned (inr repos')) ->
  map ID repos' = (map ID repos ++ map fi_Name (List.filter listed fis))%list.
Proof.
  revert repos st. induction fis as [|fi rest IH]; intros repos st H.
  - cbn in H. injection H as _ <-. cbn. now rewrite app_nil_r.
  - cbn [listRepos_loop] in H. cbn [List.filter]. unfold listed at 1.
    destruct (fi_IsDir fi && regexpMD5.MatchString (fi_Name fi)).
    + unfold bind at 1 in H.
      destruct (gitRemote exec_run (fi_Name fi) st) as [st1 [[e|remote]|]]; try discriminate.
      unfold bind at 1 in H.
      destruct (repoName exec_run (fi_Name fi) st1) as [st2 [[e|nm]|]]; try discriminate.
      unfold bind at 1 in H. unfold loadRepo, bind at 1, get_fs, lift in H.
      destruct (loadRepoFiles (st_fs st2) _) as [repo|] eqn:El; try discriminate.
      apply loadRepoFiles_ID in El. cbn [ID] in El.
      apply IH in H. rewrite H, map_app. cbn [map]. rewrite El, <- app_assoc.
      reflexivity.
    + now apply IH in H.
Qed.

Lemma silent_bind {A B : Type} (m : M A) (k : A -> M B) :
  silent m -> (forall a, silent (k a)) -> silent (bind m k).
Proof.
  intros Hm Hk st. unfold bind. specialize (Hm st).
  destruct (m st) as [st1 [[e|a]|]]; cbn [fst] in *; try exact Hm.
  now rewrite Hk.
Qed.

Lemma silent_run (dir : string) (argv : list string) : silent (run exec_run dir argv).
Proof.
  intros st. unfold run. now destruct (exec_run (st_fs st) dir argv) as [[fs' out] ok].
Qed.

Lemma silent_gitRemote (repoPath : string) : silent (gitRemote exec_run repoPath).
Proof. apply silent_bind; [apply silent_run|]. now intros [out [|]] st. Qed.

Lemma silent_repoName (repoPath : string) : silent (repoName exec_run repoPath).
Proof. apply silent_bind; [apply silent_gitRemote|]. now intros a st. Qed.

Lemma silent_loadRepo (repo : Repository) : silent (loadRepo repo).
Proof.
  apply silent_bind; [now intros st|]. intros fs st. unfold lift.
  now destruct (loadRepoFiles fs repo).
Qed.

Lemma silent_listRepos_loop (fis : list FileInfo) (repos : list Repository) :
  silent (listRepos_loop exec_run fis repos).
Proof.
  revert repos. induction fis as [|fi rest IH]; intros repos; cbn [listRepos_loop].
  - now intros st.
  - destruct (fi_IsDir fi && regexpMD5.MatchString (fi_Name fi)); [|apply IH].
    apply silent_bind; [apply silent_gitRemote|]. intros remote.
    apply silent_bind; [apply silent_repoName|]. intros nm.
    apply silent_bind; [apply silent_loadRepo|]. intros repo. apply IH.
Qed.

(** C6, as the code has it: when the enumeration succeeds, it writes one
    list of repositories, with exactly one repository, in directory order,
    for each immediate child of the storage root that is a directory whose
    name contains 32 consecutive lowercase hexadecimal characters (the
    expression is not anchored), its id being that name; entries that are
    not directories, and directories without such a run of characters in
    their name, are left out. *)
Theorem C6_enumeration (r : Request) (fis : list FileInfo) (st st' : State) :
  os.Readdir (st_fs st) "." = inr fis ->
  listRepos exec_run r st = (st', Returned (inr tt)) ->
  exists repos,
    rb_body (st_w st') = (rb_body (st_w st) ++ [JSONRepos repos])%list /\
    map ID repos
    = map fi_Name
        (List.filter (fun fi => fi_IsDir fi && regexpMD5.MatchString (fi_Name fi)) fis).
Proof.
  intros Hdir H. unfold listRepos, bind at 1, get_fs in H. rewrite Hdir in H.
  unfold bind at 1 in H.
  pose proof (silent_listRepos_loop fis [] st) as Hw.
  destruct (listRepos_loop exec_run fis [] st) as [st1 [[e|repos]|]] eqn:El;
    try discriminate.
  apply listRepos_loop_IDs in El. cbn in El, Hw.
  exists repos. split; [|exact El].
  unfold renderJSON, bind, WriteHeader, Write in H. cbn in H.
  injection H as <-. cbn. now rewrite Hw.
Qed.

End Enumeration.

Lemma matchHere_spec (n : nat) (s : string) :
  regexpMD5.matchHere n s = true <->
  exists run rest, s = run +:+ rest /\ String.length run = n /\ lowerHex run.
Proof.
  revert s. induction n as [|n IH]; intros s; cbn [regexpMD5.matchHere].
  - split; [|reflexivity]. intros _. exists "", s. repeat split. constructor.
  - destruct s as [|c s].
    + split; [discriminate|]. intros (run & rest & E & Hlen & _).
      destruct run; [discriminate Hlen | discriminate E].
    + rewrite andb_true_iff, IH. split.
      * intros (Hc & run & rest & -> & Hlen & Hrun).
        exists (String c run), rest. repeat split; [now cbn; rewrite Hlen|].
        now constructor.
      * intros (run & rest & E & Hlen & Hrun).
        destruct run as [|c' run]; [discriminate Hlen|].
        rewrite append_cons in E. injection E as <- ->.
        inversion Hrun; subst. split; [assumption|].
        exists run, rest. repeat split; [now injection Hlen | assumption].
Qed.

Lemma MatchString_spec (s : string) :
  regexpMD5.MatchString s = true <->
  exists before run rest,
    s = before +:+ run +:+ rest /\ String.length run = 32%nat /\ lowerHex run.
Proof.
  induction s as [|c s IH].
  - cbn [regexpMD5.MatchString]. rewrite orb_false_r, matchHere_spec. split.
    + intros (run & rest & E & H). exists "", run, rest. now split.
    + intros (before & run & rest & E & Hlen & _).
      destruct before; [|discriminate E]. destruct run; discriminate.
  - cbn [regexpMD5.MatchString]. rewrite orb_true_iff, matchHere_spec, IH. split.
    + intros [(run & rest & E & H) | (before & run & rest & E & H)].
      * exists "", run, rest. now split.
      * exists (String c before), run, rest. split; [|exact H].
        now rewrite append_cons, E.
    + intros (before & run & rest & E & H). destruct before as [|c' before].
      * left. exists run, rest. now split.
      * right. rewrite append_cons in E. injection E as <- ->.
        exists before, run, rest. now split.
Qed.

Lemma C6_enumeration_witness :
  exists st',
    listRepos sample_exec (mkRequest "" "" [])
      (mkState (IDir 493 128 [("900150983cd24fb0d6963f7d28e17f72", workdir [] [] []);
                              ("README.md", IFile 420 []);
                              ("notes", IDir 493 64 [])])
         [] (mkResponseBuffer None []))
    = (st', Returned (inr tt)) /\
    exists repos,
      rb_body (st_w st') = [JSONRepos repos] /\
      map ID repos = ["900150983cd24fb0d6963f7d28e17f72"].
Proof.
  eexists. split; [vm_compute; reflexivity|].
  refine (C6_enumeration sample_exec (mkRequest "" "" [])
            [mkFileInfo "900150983cd24fb0d6963f7d28e17f72" 96 493 true;
             mkFileInfo "README.md" 0 420 false;
             mkFileInfo "notes" 64 493 true]
            (mkState (IDir 493 128 [("900150983cd24fb0d6963f7d28e17f72", workdir [] [] []);
                                    ("README.md", IFile 420 []);
                                    ("notes", IDir 493 64 [])])
               [] (mkResponseBuffer None [])) _ _ _);
    vm_compute; reflexivity.
Defined.

(** C6 as stated fails: the directory below has a name of 33 characters,
    the first of them no hexadecimal digit, and it is listed. *)
Lemma C6_counterexample :
  exists st' repo,
    listRepos sample_exec (mkRequest "" "" [])
      (mkState (IDir 493 128 [("x900150983cd24fb0d6963f7d28e17f72", IDir 493 96 [])])
         [] (mkResponseBuffer None []))
    = (st', Returned (inr tt)) /\
    rb_body (st_w st') = [JSONRepos [repo]] /\
    ID repo = "x900150983cd24fb0d6963f7d28e17f72" /\
    String.length (ID repo) <> 32%nat /\
    ~ lowerHex (ID repo).
Proof.
  eexists. eexists. split; [vm_compute; reflexivity|].
  split; [reflexivity|]. split; [reflexivity|]. split; [discriminate|].
  intros H. inversion H as [|? ? Hc _]. discriminate Hc.
Qed.

(** * More on [setDeepNode] and the visitor *)

Lemma setChildren_same (b : FileNode) : setChildren b (Children b) = b.
Proof. now destruct b. Qed.

Lemma nodeAt_app (b : FileNode) (ks1 ks2 : list string) :
  nodeAt b (ks1 ++ ks2)%list = nodeAt b ks1 ≫= fun p => nodeAt p ks2.
Proof.
  revert b. induction ks1 as [|k ks1 IH]; intros b; [reflexivity|].
  cbn [app nodeAt]. destruct (Children b !! k); [apply IH | reflexivity].
Qed.

Lemma setDeepNode_total (keys : list string) (b f : FileNode) :
  keys <> [] -> exists b', setDeepNode b keys f = Returned b'.
Proof.
  revert b. induction keys as [|k rest IH]; intros b Hne; [congruence|].
  cbn [setDeepNode].
  destruct (Children b !! k) as [v|], rest as [|k' rest];
    try (cbn; eexists; reflexivity).
  destruct (IH v ltac:(discriminate)) as [v' ->]. cbn. eexists; reflexivity.
Qed.

(** [setDeepNode] with the keys [ks ++ [k]] follows [ks] and stops there:
    when [ks] leads to a node [p], the new node is stored under its own name
    in the children of [p]; the last key [k] is not followed, and the child
    under it stays as it is. *)
Theorem setDeepNode_stores_above (ks : list string) (k : string) (b p f : FileNode) :
  nodeAt b ks = Some p ->
  exists b',
    setDeepNode b (ks ++ [k])%list f = Returned b' /\
    nodeAt b' ks = Some (setChildren p (<[Name f := f]> (Children p))) /\
    nodeAt b' (ks ++ [Name f])%list = Some f /\
    (k <> Name f -> nodeAt b' (ks ++ [k])%list = nodeAt b (ks ++ [k])%list).
Proof.
  intros Hp.
  assert (H : exists b', setDeepNode b (ks ++ [k])%list f = Returned b' /\
                         nodeAt b' ks = Some (setChildren p (<[Name f := f]> (Children p)))).
  { revert b Hp. induction ks as [|k0 ks IH]; intros b Hp.
    - cbn [nodeAt] in Hp. injection Hp as ->. cbn [app setDeepNode length Nat.eqb].
      destruct (Children p !! k); eauto.
    - cbn [nodeAt] in Hp. destruct (Children b !! k0) as [v|] eqn:Ev; [|discriminate].
      destruct (IH v Hp) as (v' & Hv' & Hn).
      change ((k0 :: ks) ++ [k])%list with (k0 :: (ks ++ [k])%list).
      cbn [setDeepNode]. rewrite Ev.
      destruct (ks ++ [k])%list as [|k1 rest] eqn:E; [now destruct ks|].
      rewrite Hv'. cbn [mbind Outcome_bind]. eexists. split; [reflexivity|].
      cbn [nodeAt setChildren Children]. now rewrite lookup_insert_eq. }
  destruct H as (b' & Hb' & Hn). exists b'. split; [exact Hb'|]. split; [exact Hn|].
  split.
  - rewrite nodeAt_app, Hn. cbn [mbind option_bind nodeAt setChildren Children].
    now rewrite lookup_insert_eq.
  - intros Hk. rewrite !nodeAt_app, Hn, Hp.
    cbn [mbind option_bind nodeAt setChildren Children].
    now rewrite lookup_insert_ne by congruence.
Qed.

Lemma setDeepNode_stores_above_witness :
  exists b',
    setDeepNode (example_tree "r") ["sub"; "deep"] (b_txt "r") = Returned b' /\
    nodeAt b' ["sub"]
    = Some (setChildren sub_dir (<["b.txt" := b_txt "r"]> (Children sub_dir))) /\
    nodeAt b' ["sub"; "b.txt"] = Some (b_txt "r") /\
    ("deep" <> "b.txt" -> nodeAt b' ["sub"; "deep"] = nodeAt (example_tree "r") ["sub"; "deep"]).
Proof.
  apply (setDeepNode_stores_above ["sub"] "deep" (example_tree "r") sub_dir (b_txt "r")).
  reflexivity.
Defined.

(** When the keys before the last lead nowhere, [setDeepNode] returns the
    tree as it was: the new node is dropped, and nothing reports it. *)
Theorem setDeepNode_drops (ks : list string) (k : string) (b f : FileNode) :
  nodeAt b ks = None ->
  setDeepNode b (ks ++ [k])%list f = Returned b.
Proof.
  revert b. induction ks as [|k0 ks IH]; intros b Hp; [discriminate|].
  cbn [nodeAt] in Hp.
  change ((k0 :: ks) ++ [k])%list with (k0 :: (ks ++ [k])%list).
  cbn [setDeepNode].
  destruct (Children b !! k0) as [v|] eqn:Ev.
  - pose proof (IH v Hp) as Hv.
    destruct (ks ++ [k])%list as [|k1 rest] eqn:E; [now destruct ks|].
    rewrite Hv. cbn [mbind Outcome_bind].
    now rewrite insert_id, setChildren_same.
  - destruct (ks ++ [k])%list as [|k1 rest] eqn:E; [now destruct ks | reflexivity].
Qed.

Lemma setDeepNode_drops_witness :
  setDeepNode (example_tree "r") ["lib"; "x"] (b_txt "r") = Returned (example_tree "r").
Proof. apply (setDeepNode_drops ["lib"] "x"). reflexivity. Defined.

(** [setDeepNode] panics on an empty list of keys only: with a key it
    returns a node that describes the same entry as before. *)
Theorem setDeepNode_returns (keys : list string) (b f : FileNode) :
  keys <> [] ->
  exists b', setDeepNode b keys f = Returned b' /\ same_entry b' b.
Proof.
  intros Hne. destruct (setDeepNode_total keys b f Hne) as [b' Hb']. exists b'.
  split; [exact Hb'|].
  pose proof (setDeepNode_same_entry keys f b) as Hs. now rewrite Hb' in Hs.
Qed.

Lemma setDeepNode_returns_witness :
  exists b', setDeepNode sub_dir ["x"] (b_txt "r") = Returned b' /\ same_entry b' sub_dir.
Proof. apply setDeepNode_returns. discriminate. Defined.

Lemma insertNode_returns (first : FileNode) (path : string) (node : FileNode) :
  exists first', insertNode first path node = Returned first' /\ same_entry first' first.
Proof.
  unfold insertNode.
  destruct (tail (strings.Split path slash)) as [|k1 [|k2 rest]] eqn:E; cbn [length Nat.leb].
  - eexists. split; [reflexivity | repeat split].
  - eexists. split; [reflexivity | repeat split].
  - assert (Hne : removelast (k1 :: k2 :: rest) <> []) by (cbn; destruct rest; discriminate).
    destruct (setDeepNode_total _ first node Hne) as [b' Hb'].
    exists b'. split; [exact Hb'|].
    pose proof (setDeepNode_same_entry (removelast (k1 :: k2 :: rest)) node first) as Hs.
    now rewrite Hb' in Hs.
Qed.

Lemma visitFunc_returns (repoID path : string) (fi : FileInfo) (err : option Errno)
    (first : option FileNode) :
  exists first', visitFunc repoID path (Some fi) err first = Returned first'.
Proof.
  unfold visitFunc. destruct (skipped path); [eauto|].
  destruct first as [fst|]; [|eauto].
  destruct (insertNode_returns fst path
              (addURL repoID path (newNode (classify path (fi_IsDir fi)) fi)))
    as (fst' & -> & _).
  cbn. eauto.
Qed.

(** The visitor panics exactly when it is given no file info for a path
    that is not skipped. *)
Theorem visitFunc_panics_iff (repoID path : string) (f : option FileInfo)
    (err : option Errno) (first : option FileNode) :
  visitFunc repoID path f err first = Panicked <-> skipped path = false /\ f = None.
Proof.
  destruct f as [fi|].
  - destruct (visitFunc_returns repoID path fi err first) as [first' ->].
    split; [discriminate | now intros [_ ?]].
  - unfold visitFunc. destruct (skipped path); split; try discriminate; auto.
    now intros [? _].
Qed.

(** * When a build returns *)

Lemma walk_returns {S : Type}
    (walkFn : string -> option FileInfo -> option Errno -> S -> Outcome S) :
  (forall path fi err st, exists st', walkFn path (Some fi) err st = Returned st') ->
  forall n path info st,
    examinable n = true ->
    exists st', filepath.walk walkFn path info n st = Returned st'.
Proof.
  intros Hf n. induction n as [m data | m sz es IH] using Inode_nested_ind;
    intros path info st Hex.
  - cbn [filepath.walk]. apply Hf.
  - rewrite walk_dir. cbn [examinable] in Hex.
    destruct (os.can_read m); [|apply Hf].
    cbn [negb orb] in Hex. apply andb_prop in Hex as [Hs Hes].
    destruct (Hf path info None st) as (st1 & ->). cbn [mbind Outcome_bind].
    clear st. revert st1.
    induction IH as [| [name child] rest Hchild _ IHrest]; intros st; [cbn; eauto|].
    cbn [forallb snd] in Hes. apply andb_prop in Hes as [Hc Hrest].
    cbn [walk_entries]. cbv zeta. rewrite Hs. cbn [snd] in Hchild.
    destruct (Hchild (filepath.Join path name) (os.fileInfoOf name child) st Hc)
      as (st' & ->).
    cbn [mbind Outcome_bind]. now apply IHrest.
Qed.

(** A build returns, with or without a tree, whenever the root resolves
    and every directory below it that can be listed can also be searched:
    then [lstat] succeeds on every entry and the visitor always has its file
    info. *)
Theorem loadRepoFiles_returns (fs : Inode) (repo : Repository) (n : Inode) :
  os.resolve fs (ID repo) = inr n ->
  examinable n = true ->
  exists first, loadRepoFiles fs repo = Returned (setFiles repo first).
Proof.
  intros Hres Hex. unfold loadRepoFiles, filepath.Walk. rewrite Hres.
  destruct (walk_returns (visitFunc (ID repo)) (visitFunc_returns (ID repo))
              n (ID repo) (os.fileInfoOf (os.basename (ID repo)) n) None Hex)
    as (first & ->).
  now exists first.
Qed.

Lemma loadRepoFiles_returns_witness :
  exists first,
    loadRepoFiles (storage "r" (IDir 493 96 [("a.txt", IFile 0 []); ("locked", IDir 0 64 [])]))
      (mkRepository "r" "" "" None)
    = Returned (setFiles (mkRepository "r" "" "" None) first).
Proof.
  apply (loadRepoFiles_returns _ _
           (IDir 493 96 [("a.txt", IFile 0 []); ("locked", IDir 0 64 [])]));
    reflexivity.
Defined.

(** * Children are stored under their names *)

Lemma keyed_leaf (b : FileNode) : Children b = ∅ -> keyed b.
Proof.
  intros Hb [|k0 ks] k n; cbn [app nodeAt]; rewrite Hb, lookup_empty; discriminate.
Qed.

Lemma keyed_child (b v : FileNode) (k : string) :
  keyed b -> Children b !! k = Some v -> keyed v /\ Name v = k.
Proof.
  intros Hb Hv. split.
  - intros ks k' n Hn. apply (Hb (k :: ks) k' n). cbn [app nodeAt]. now rewrite Hv.
  - apply (Hb [] k v). cbn [app nodeAt]. now rewrite Hv.
Qed.

Lemma keyed_put (b v : FileNode) (k : string) :
  keyed b -> keyed v -> Name v = k ->
  keyed (setChildren b (<[k := v]> (Children b))).
Proof.
  intros Hb Hv Hk ks k' n. destruct ks as [|k0 ks]; cbn [app nodeAt setChildren Children].
  - destruct (decide (k = k')) as [<-|Hne].
    + rewrite lookup_insert_eq. now intros [= <-].
    + rewrite lookup_insert_ne by assumption. intros Hn.
      apply (Hb [] k' n). exact Hn.
  - destruct (decide (k = k0)) as [<-|Hne].
    + rewrite lookup_insert_eq. apply Hv.
    + rewrite lookup_insert_ne by assumption. intros Hn.
      apply (Hb (k0 :: ks) k' n). exact Hn.
Qed.

Lemma setDeepNode_keyed (keys : list string) (b f : FileNode) :
  keyed b -> keyed f -> keeps keyed (setDeepNode b keys f).
Proof.
  intros Hb Hf. revert b Hb. induction keys as [|k rest IH]; intros b Hb; [exact I|].
  cbn [setDeepNode].
  destruct (Children b !! k) as [v|] eqn:Ev, rest as [|k' rest];
    try (cbn; now apply keyed_put).
  - destruct (keyed_child b v k Hb Ev) as [Hv Hname].
    specialize (IH v Hv). pose proof (setDeepNode_same_entry (k' :: rest) f v) as Hs.
    destruct (setDeepNode v (k' :: rest) f) as [v'|]; cbn in *; [|exact I].
    apply keyed_put; [assumption | assumption |].
    destruct Hs as (_ & Hn & _). congruence.
  - cbn. exact Hb.
Qed.

Lemma visitFunc_keeps_keyed (repoID path : string) (f : option FileInfo)
    (err : option Errno) (st : option FileNode) :
  (forall r, st = Some r -> keyed r) ->
  keeps (fun st' => forall r, st' = Some r -> keyed r) (visitFunc repoID path f err st).
Proof.
  intros Hst. unfold visitFunc. destruct (skipped path); [exact Hst|].
  destruct f as [fi|]; [|exact I].
  destruct st as [fst|].
  - assert (Hnode : keyed (addURL repoID path (newNode (classify path (fi_IsDir fi)) fi))).
    { apply keyed_leaf. unfold addURL. now destruct (String.eqb _ _). }
    unfold insertNode.
    destruct (length (tail (strings.Split path slash)) <=? 1)%nat.
    + cbn. intros r [= <-]. apply keyed_put; auto.
    + pose proof (setDeepNode_keyed (removelast (tail (strings.Split path slash)))
                    fst _ (Hst fst eq_refl) Hnode) as H.
      destruct (setDeepNode fst _ _); cbn in *; [|exact I]. now intros r [= <-].
  - cbn. intros r [= <-]. now apply keyed_leaf.
Qed.

(** In the tree of every build, on every filesystem, every node is stored
    in its parent's children under its own name. *)
Theorem loadRepoFiles_keyed (fs : Inode) (repo repo' : Repository) (root : FileNode) :
  loadRepoFiles fs repo = Returned repo' ->
  Files repo' = Some root ->
  forall ks k n, nodeAt root (ks ++ [k])%list = Some n -> Name n = k.
Proof.
  unfold loadRepoFiles. intros H Hroot.
  assert (Hk : keeps (fun st' => forall r, st' = Some r -> keyed r)
                 (filepath.Walk (visitFunc (ID repo)) fs (ID repo) None)).
  { unfold filepath.Walk. destruct (os.resolve fs (ID repo)) as [e|n].
    - apply visitFunc_keeps_keyed. discriminate.
    - apply walk_keeps; [|discriminate].
      intros path f err st. apply visitFunc_keeps_keyed. }
  destruct (filepath.Walk _ _ _ _) as [first|]; [|discriminate].
  cbn in H, Hk. injection H as <-. cbn in Hroot. now apply Hk.
Qed.

Lemma loadRepoFiles_keyed_witness : Name (b_txt "r") = "b.txt".
Proof.
  apply (loadRepoFiles_keyed
           (storage "r" (workdir (bytes_of 10) (bytes_of 5) (bytes_of 3)))
           (mkRepository "r" "" "" None)
           (mkRepository "r" "" "" (Some (example_tree "r")))
           (example_tree "r")
           (loadRepoFiles_example
              (storage "r" (workdir (bytes_of 10) (bytes_of 5) (bytes_of 3)))
              (mkRepository "r" "" "" None)
              (bytes_of 10) (bytes_of 5) (bytes_of 3)
              eq_refl eq_refl eq_refl eq_refl eq_refl)
           eq_refl [] "b.txt" (b_txt "r")).
  reflexivity.
Defined.

(** * Nothing of [.git] in a tree *)

Lemma walk_keeps_visits {S : Type} (root : string)
    (walkFn : string -> option FileInfo -> option Errno -> S -> Outcome S)
    (I : S -> Prop) :
  plain root = true ->
  (forall path f err st, visit_of root path f -> I st -> keeps I (walkFn path f err st)) ->
  forall n segs info st,
    plain_names n = true ->
    forallb plain segs = true ->
    fi_Name info = List.last segs root ->
    I st ->
    keeps I (filepath.walk walkFn (strings.Join (root :: segs) "/") info n st).
Proof.
  intros Hroot Hstep n. induction n as [m data | m sz es IH] using Inode_nested_ind;
    intros segs info st Hwf Hsegs Hinfo Hst.
  - cbn [filepath.walk]. apply Hstep; [|exact Hst].
    exists segs. repeat split; [assumption|]. now intros fi [= <-].
  - rewrite walk_dir.
    assert (Hhere : forall e, keeps I (walkFn (strings.Join (root :: segs) "/") (Some info) e st)).
    { intros e. apply Hstep; [|exact Hst].
      exists segs. repeat split; [assumption|]. now intros fi [= <-]. }
    destruct (os.can_read m); [|apply Hhere].
    apply keeps_bind; [apply Hhere|]. clear st Hst Hhere.
    cbn [plain_names] in Hwf.
    induction IH as [| [name child] rest Hchild _ IHrest]; intros st Hst; [exact Hst|].
    cbn [forallb fst snd] in Hwf. apply andb_prop in Hwf as [Hhd Hrest].
    apply andb_prop in Hhd as [Hname Hchildwf].
    cbn [walk_entries]. cbv zeta.
    rewrite (filepath_Join_plain (root :: segs) name)
      by (try discriminate; try assumption; cbn; now rewrite Hroot).
    change ((root :: segs) ++ [name])%list with (root :: (segs ++ [name])%list).
    assert (Hsegs' : forallb plain (segs ++ [name]) = true).
    { rewrite forallb_app, Hsegs. cbn. now rewrite Hname. }
    apply keeps_bind; [|now apply IHrest].
    destruct (os.can_search m).
    + cbn [snd] in Hchild. apply Hchild; try assumption.
      cbn [os.fileInfoOf]. rewrite last_last. now destruct child.
    + apply Hstep; [|exact Hst]. exists (segs ++ [name])%list.
      repeat split; [assumption | discriminate].
Qed.

Lemma last_cons_default (segs : list string) (s d : string) :
  List.last (s :: segs) d = List.last segs s.
Proof.
  revert s d. induction segs as [|a t IH]; intros s d; [reflexivity|].
  change (List.last (s :: a :: t) d) with (List.last (a :: t) d).
  now rewrite (IH a d), (IH a s).
Qed.

Lemma existsb_skipped_last (segs : list string) (root : string) :
  existsb skipped (root :: segs) = false -> skipped (List.last segs root) = false.
Proof.
  revert root. induction segs as [|s segs IH]; intros root H.
  - cbn in *. now apply orb_false_elim in H as [H _].
  - cbn [existsb] in H. apply orb_false_elim in H as [_ H].
    rewrite last_cons_default. now apply IH.
Qed.

Lemma skipped_fileURL (repoID : string) (segs : list string) :
  skipped repoID = false ->
  existsb skipped segs = false ->
  skipped ("/repositories/" +:+ repoID +:+ "/files/" +:+ strings.Join segs "/") = false.
Proof.
  intros Hid Hsegs.
  change ("/repositories/" +:+ repoID +:+ "/files/" +:+ strings.Join segs "/")
    with ("" +:+ String slash ("repositories" +:+ String slash
            (repoID +:+ String slash ("files" +:+ String slash (strings.Join segs "/"))))).
  rewrite !skipped_slash, skipped_Join, Hid, Hsegs. reflexivity.
Qed.

Lemma nodeAt_setDeepNode (keys : list string) (b f b' : FileNode) :
  Children f = ∅ ->
  setDeepNode b keys f = Returned b' ->
  forall ks n', nodeAt b' ks = Some n' ->
                n' = f \/ exists n, nodeAt b ks = Some n /\ same_entry n' n.
Proof.
  intros Hf. revert b b'. induction keys as [|k rest IH]; intros b b' H ks n' Hn;
    [discriminate|].
  cbn [setDeepNode] in H.
  assert (Hput : forall v, v = f \/ (exists v0, Children b !! k = Some v0 /\
                                        forall ks n', nodeAt v ks = Some n' ->
                                          n' = f \/ exists n, nodeAt v0 ks = Some n /\ same_entry n' n) ->
            forall key, (v = f \/ key = k) ->
            b' = setChildren b (<[key := v]> (Children b)) ->
            n' = f \/ exists n, nodeAt b ks = Some n /\ same_entry n' n).
  { intros v Hv key Hkey ->. destruct ks as [|k0 ks]; cbn [nodeAt setChildren Children] in Hn.
    - injection Hn as <-. right. exists b. split; [reflexivity | repeat split].
    - destruct (decide (key = k0)) as [<-|Hne].
      + rewrite lookup_insert_eq in Hn. destruct Hv as [-> | (v0 & Hv0 & Hsub)].
        * left. destruct ks; cbn [nodeAt] in Hn; [congruence|].
          rewrite Hf, lookup_empty in Hn. discriminate.
        * destruct Hkey as [-> | ->].
          { left. destruct ks; cbn [nodeAt] in Hn; [congruence|].
            rewrite Hf, lookup_empty in Hn. discriminate. }
          destruct (Hsub ks n' Hn) as [-> | (n & Hn0 & Hs)]; [now left|].
          right. exists n. cbn [nodeAt]. rewrite Hv0. now split.
      + rewrite lookup_insert_ne in Hn by assumption.
        right. exists n'. cbn [nodeAt]. split; [exact Hn | repeat split]. }
  destruct (Children b !! k) as [v|] eqn:Ev, rest as [|k' rest].
  - cbn in H. injection H as <-.
    exact (Hput f (or_introl eq_refl) (Name f) (or_introl eq_refl) eq_refl).
  - destruct (setDeepNode v (k' :: rest) f) as [v'|] eqn:Ev'; [|discriminate].
    cbn in H. injection H as <-.
    refine (Hput v' (or_intror (ex_intro _ v (conj eq_refl _))) k (or_intror eq_refl) eq_refl).
    intros ks' n'' Hn''. now apply (IH v v').
  - cbn in H. injection H as <-.
    exact (Hput f (or_introl eq_refl) (Name f) (or_introl eq_refl) eq_refl).
  - cbn in H. injection H as <-. right. exists n'. split; [exact Hn | repeat split].
Qed.

Lemma insertNode_as_setDeepNode (first : FileNode) (path : string) (node : FileNode) :
  exists keys, insertNode first path node = setDeepNode first keys node.
Proof.
  unfold insertNode.
  destruct (length (tail (strings.Split path slash)) <=? 1)%nat; [|eauto].
  exists [""]. cbn [setDeepNode length Nat.eqb]. now destruct (Children first !! "").
Qed.

Lemma visitFunc_keeps_clear (root path : string) (f : option FileInfo)
    (err : option Errno) (st : option FileNode) :
  plain root = true ->
  visit_of root path f ->
  (forall r, st = Some r -> throughout clear_of_git r) ->
  keeps (fun st' => forall r, st' = Some r -> throughout clear_of_git r)
    (visitFunc root path f err st).
Proof.
  intros Hroot (segs & Hsegs & -> & Hname) Hst. unfold visitFunc.
  destruct (skipped (strings.Join (root :: segs) "/")) eqn:Hskip; [exact Hst|].
  destruct f as [fi|]; [|exact I].
  rewrite skipped_Join in Hskip.
  pose proof (existsb_skipped_last _ _ Hskip) as Hlast.
  rewrite <- (Hname fi eq_refl) in Hlast.
  cbn [existsb] in Hskip. apply orb_false_elim in Hskip as [Hr Hs].
  set (node := addURL root _ _).
  assert (Hnode : clear_of_git node /\ Children node = ∅).
  { subst node. unfold addURL, fileURL, newNode, clear_of_git.
    cbn [Type_ Name URL Children].
    destruct (String.eqb _ "file"); cbn [setURL Name URL Children Type_];
      (split; [split; [exact Hlast|] | reflexivity]); [|reflexivity].
    rewrite (Split_Join (root :: segs)).
    - now apply skipped_fileURL.
    - discriminate.
    - apply forallb_plain_slashfree. cbn. now rewrite Hroot. }
  destruct Hnode as [Hclear Hleaf].
  destruct st as [fst|].
  - destruct (insertNode_as_setDeepNode fst (strings.Join (root :: segs) "/") node)
      as (keys & ->).
    destruct (setDeepNode fst keys node) as [fst'|] eqn:E; [|exact I].
    cbn. intros r [= <-] ks n Hn.
    destruct (nodeAt_setDeepNode keys fst node fst' Hleaf E ks n Hn)
      as [-> | (n0 & Hn0 & Hs0)]; [exact Hclear|].
    destruct (Hst fst eq_refl ks n0 Hn0) as [H1 H2], Hs0 as (_ & Hnm & _ & Hurl).
    split; congruence.
  - cbn. intros r [= <-] ks n Hn. subst node.
    destruct ks as [|k ks]; cbn [nodeAt] in Hn.
    + injection Hn as <-. split; [exact Hlast | reflexivity].
    + cbn [newNode Children] in Hn. rewrite lookup_empty in Hn. discriminate.
Qed.

(** On a filesystem whose entries have names a directory entry can have,
    and for a repository id that is such a name, no node in the tree of a
    build has [.git] in its name or in its address: what the visitor skips
    leaves no node behind, and no address leads into the metadata. *)
Theorem loadRepoFiles_clear_of_git (fs : Inode) (repo repo' : Repository)
    (n : Inode) (root : FileNode) :
  plain (ID repo) = true ->
  os.resolve fs (ID repo) = inr n ->
  plain_names n = true ->
  loadRepoFiles fs repo = Returned repo' ->
  Files repo' = Some root ->
  forall ks node,
    nodeAt root ks = Some node ->
    strings.Contains (Name node) ".git" = false /\
    strings.Contains (URL node) ".git" = false.
Proof.
  intros Hplain Hres Hwf H Hroot. unfold loadRepoFiles, filepath.Walk in H.
  rewrite Hres in H.
  pose proof (walk_keeps_visits (ID repo) (visitFunc (ID repo))
                (fun st => forall r, st = Some r -> throughout clear_of_git r) Hplain
                (fun path f err st Hv Hst =>
                   visitFunc_keeps_clear (ID repo) path f err st Hplain Hv Hst)
                n [] (os.fileInfoOf (os.basename (ID repo)) n) None Hwf eq_refl) as Hk.
  cbn [strings.Join] in Hk.
  destruct (filepath.walk _ _ _ _ _) as [first|]; [|discriminate].
  cbn in H. injection H as <-. cbn in Hroot. subst first.
  intros ks node Hnode.
  assert (Hinfo : fi_Name (os.fileInfoOf (os.basename (ID repo)) n) = List.last [] (ID repo)).
  { cbn [List.last]. rewrite plain_basename by assumption. now destruct n. }
  specialize (Hk Hinfo ltac:(discriminate)). cbn in Hk.
  exact (Hk root eq_refl ks node Hnode).
Qed.

Lemma loadRepoFiles_clear_of_git_witness :
  strings.Contains (Name (b_txt "r")) ".git" = false /\
  strings.Contains (URL (b_txt "r")) ".git" = false.
Proof.
  apply (loadRepoFiles_clear_of_git
           (storage "r" (workdir (bytes_of 10) (bytes_of 5) (bytes_of 3)))
           (mkRepository "r" "" "" None)
           (mkRepository "r" "" "" (Some (example_tree "r")))
           (workdir (bytes_of 10) (bytes_of 5) (bytes_of 3))
           (example_tree "r")
           eq_refl eq_refl eq_refl
           (loadRepoFiles_example
              (storage "r" (workdir (bytes_of 10) (bytes_of 5) (bytes_of 3)))
              (mkRepository "r" "" "" None)
              (bytes_of 10) (bytes_of 5) (bytes_of 3)
              eq_refl eq_refl eq_refl eq_refl eq_refl)
           eq_refl ["b.txt"] (b_txt "r")).
  reflexivity.
Defined.

(** * A repository id with [.git] in it *)

Lemma walk_idle {S : Type} (n : Inode) (path : string) (info : FileInfo) (st : S) :
  filepath.walk (fun _ _ _ st => Returned st) path info n st = Returned st.
Proof.
  revert path info st. induction n as [m data | m sz es IH] using Inode_nested_ind;
    intros path info st; [reflexivity|].
  rewrite walk_dir. destruct (os.can_read m); [|reflexivity].
  cbn [mbind Outcome_bind].
  induction IH as [| [name child] rest Hchild _ IHrest]; [reflexivity|].
  cbn [walk_entries]. cbv zeta. cbn [snd] in Hchild. rewrite Hchild.
  destruct (os.can_search m); exact IHrest.
Qed.

(** A repository whose id is a plain name with [.git] in it gets no tree:
    every path of the walk starts with the id and is skipped, so the build
    returns with the files absent, whether the root exists or not, and never
    panics. *)
Theorem loadRepoFiles_git_in_id (fs : Inode) (repo : Repository) :
  plain (ID repo) = true ->
  strings.Contains (ID repo) ".git" = true ->
  (forall n, os.resolve fs (ID repo) = inr n -> plain_names n = true) ->
  loadRepoFiles fs repo = Returned (setFiles repo None).
Proof.
  intros Hplain Hgit Hwf. unfold loadRepoFiles, filepath.Walk.
  destruct (os.resolve fs (ID repo)) as [e|n] eqn:Hres.
  - unfold visitFunc, skipped. now rewrite Hgit.
  - rewrite (walk_under (ID repo) (visitFunc (ID repo)) (fun _ _ _ st => Returned st)).
    + now rewrite walk_idle.
    + assumption.
    + intros path fi err st (segs & _ & ->). apply visitFunc_skipped.
      cbn [existsb]. unfold skipped at 1. now rewrite Hgit.
    + now apply Hwf.
    + now exists [].
Qed.

Lemma loadRepoFiles_git_in_id_witness :
  loadRepoFiles (storage "backend.git" (workdir [] [] []))
    (mkRepository "backend.git" "" "" None)
  = Returned (mkRepository "backend.git" "" "" None).
Proof.
  apply (loadRepoFiles_git_in_id (storage "backend.git" (workdir [] [] []))
           (mkRepository "backend.git" "" "" None)).
  - reflexivity.
  - reflexivity.
  - intros n [= <-]. reflexivity.
Defined.

(** * Requests for an id that names nothing *)

Section MoreHandlers.
Variable exec_run : Inode -> string -> list string -> Inode * list Byte.byte * bool.
Variable json_Decode : list Byte.byte -> string + Repository.

(** When [os.Stat] finds no entry for the id, the fetch, delete, build and
    run handlers all answer 404 "not found", run no command, and leave the
    filesystem as it was. *)
Theorem unknown_id_not_found (r : Request) (fs : Inode) (ran : list Command) :
  os.Stat fs ("./" +:+ vars_id r) = inl ENOENT ->
  ServeHTTP (getRepo exec_run) r fs ran
  = (fs, ran, mkResponse 404 [JSONError 404 "not found"]) /\
  ServeHTTP deleteRepo r fs ran
  = (fs, ran, mkResponse 404 [JSONError 404 "not found"]) /\
  ServeHTTP (buildRepo exec_run) r fs ran
  = (fs, ran, mkResponse 404 [JSONError 404 "not found"]) /\
  ServeHTTP (runRepo exec_run) r fs ran
  = (fs, ran, mkResponse 404 [JSONError 404 "not found"]).
Proof.
  intros H. apply fileExists_false in H.
  repeat split; unfold ServeHTTP, getRepo, deleteRepo, buildRepo, runRepo, bind, get_fs;
    cbn [st_fs]; now rewrite H.
Qed.

(** * Creating a repository *)

(** A create request whose body does not decode, or decodes to an empty
    URL, is answered 400 with the message of the decoder or "url is
    required"; no command is run and the filesystem is as it was. *)
Theorem createRepo_invalid (r : Request) (fs : Inode) (ran : list Command) :
  match json_Decode (Body r) with
  | inl msg =>
      ServeHTTP (createRepo exec_run json_Decode) r fs ran
      = (fs, ran, mkResponse 400 [JSONError 400 msg])
  | inr repo =>
      RURL repo = "" ->
      ServeHTTP (createRepo exec_run json_Decode) r fs ran
      = (fs, ran, mkResponse 400 [JSONError 400 "url is required"])
  end.
Proof.
  unfold ServeHTTP, createRepo. destruct (json_Decode (Body r)) as [msg|repo];
    [reflexivity|].
  now intros ->.
Qed.

(** A create request with a URL whose identifier is free runs exactly one
    command, the recursive clone of the URL into the identifier, and keeps
    the filesystem that command leaves, whatever follows: 200 with the
    repository, its id the identifier and its URL the one given, when the
    clone succeeds and the tree is built; 500 when the clone fails or the
    build panics, with nothing rolled back. *)
Theorem createRepo_new (r : Request) (repo : Repository) (fs : Inode) (ran : list Command) :
  json_Decode (Body r) = inr repo ->
  RURL repo <> "" ->
  os.Stat fs ("./" +:+ md5String (RURL repo)) = inl ENOENT ->
  let id := md5String (RURL repo) in
  let argv := ["git"; "clone"; "--recursive"; RURL repo; id] in
  ServeHTTP (createRepo exec_run json_Decode) r fs ran
  = ((exec_run fs "" argv).1.1, (ran ++ [("", argv)])%list,
     if (exec_run fs "" argv).2
     then match loadRepoFiles (exec_run fs "" argv).1.1
                  (mkRepository id (RName repo) (RURL repo) (Files repo)) with
          | Returned repo' => mkResponse 200 [JSONRepo repo']
          | Panicked => mkResponse 500 [JSONError 500 "Internal Server Error"]
          end
     else mkResponse 500 [JSONError 500 "Internal Server Error"]).
Proof.
  intros Hdec Hurl Hstat. cbv zeta. apply fileExists_false in Hstat.
  unfold ServeHTTP, createRepo. rewrite Hdec.
  apply String.eqb_neq in Hurl. rewrite Hurl.
  unfold bind at 1, get_fs. cbn [st_fs ID]. rewrite Hstat.
  unfold bind at 1, runCmd, bind at 1, run. cbn [st_fs st_ran st_w RURL ID].
  destruct (exec_run fs "" _) as [[fs1 out] ok]. cbn [fst snd].
  destruct ok; [|reflexivity].
  unfold ret, bind at 1, loadRepo, bind at 1, get_fs, lift. cbn [st_fs].
  destruct (loadRepoFiles fs1 _); reflexivity.
Qed.

End MoreHandlers.

Lemma createRepo_invalid_witness :
  ServeHTTP (createRepo sample_exec sample_decode) (mkRequest "" "" [])
    (storage "r" (workdir [] [] [])) []
  = (storage "r" (workdir [] [] []), [], mkResponse 400 [JSONError 400 "url is required"]).
Proof.
  exact (createRepo_invalid sample_exec sample_decode (mkRequest "" "" [])
           (storage "r" (workdir [] [] [])) [] eq_refl).
Defined.

Lemma unknown_id_not_found_witness :
  ServeHTTP deleteRepo (mkRequest "gone" "" []) (storage "r" (workdir [] [] [])) []
  = (storage "r" (workdir [] [] []), [], mkResponse 404 [JSONError 404 "not found"]).
Proof.
  exact (proj1 (proj2 (unknown_id_not_found sample_exec (mkRequest "gone" "" [])
                         (storage "r" (workdir [] [] [])) [] eq_refl))).
Defined.

Lemma createRepo_new_witness :
  ServeHTTP (createRepo sample_exec sample_decode)
    (mkRequest "" "" (list_byte_of_string "abc")) (IDir 493 0 []) []
  = (IDir 493 0 [],
     [("", ["git"; "clone"; "--recursive"; "abc"; "900150983cd24fb0d6963f7d28e17f72"])],
     mkResponse 500 [JSONError 500 "Internal Server Error"]).
Proof.
  refine (eq_trans
            (createRepo_new sample_exec sample_decode
               (mkRequest "" "" (list_byte_of_string "abc"))
               (mkRepository "" "" "abc" None) (IDir 493 0 []) [] eq_refl _ _) _).
  - discriminate.
  - vm_compute. reflexivity.
  - vm_compute. reflexivity.
Defined.

(** * The display name of a repository *)

Lemma split_from_nonempty (field s : string) : strings.split_from field s slash <> [].
Proof.
  revert field. induction s as [|c s IH]; intros field; cbn; [discriminate|].
  destruct (Ascii.eqb c slash); [discriminate | apply IH].
Qed.

Lemma last_split_from (p t field : string) :
  slashfree t = true ->
  List.last (strings.split_from field (p +:+ String slash t) slash) "" = t.
Proof.
  intros Ht. revert field. induction p as [|c p IH]; intros field.
  - rewrite append_nil_l. cbn [strings.split_from]. unfold slash at 1.
    rewrite Ascii.eqb_refl, last_cons_default, split_from_slashfree by assumption.
    reflexivity.
  - rewrite append_cons. cbn [strings.split_from].
    destruct (Ascii.eqb c slash); [|apply IH].
    rewrite last_cons_default.
    destruct (strings.split_from "" (p +:+ String slash t) slash) as [|x l] eqn:E;
      [now apply split_from_nonempty in E|].
    rewrite <- (IH ""), E. now rewrite !last_cons_default.
Qed.

Lemma HasSuffix_rev_app (x y : list ascii) : strings.HasSuffix_rev (x ++ y) x = true.
Proof.
  induction x as [|c x IH]; cbn; [now destruct y | now rewrite Ascii.eqb_refl].
Qed.

Lemma list_ascii_of_append (a b : string) :
  list_ascii_of_string (a +:+ b) = (list_ascii_of_string a ++ list_ascii_of_string b)%list.
Proof. induction a as [|c a IH]; [reflexivity|]. rewrite append_cons. cbn. now rewrite IH. Qed.

Lemma length_append (a b : string) :
  String.length (a +:+ b) = (String.length a + String.length b)%nat.
Proof. induction a as [|c a IH]; [reflexivity|]. rewrite append_cons. cbn. now rewrite IH. Qed.

Lemma substring_prefix (a b : string) : substring 0 (String.length a) (a +:+ b) = a.
Proof.
  induction a as [|c a IH]; [now destruct b|]. rewrite append_cons. cbn. now rewrite IH.
Qed.

Lemma TrimSuffix_append (a suffix : string) : strings.TrimSuffix (a +:+ suffix) suffix = a.
Proof.
  unfold strings.TrimSuffix, strings.HasSuffix.
  rewrite list_ascii_of_append, rev_app_distr, HasSuffix_rev_app, length_append.
  replace (String.length a + String.length suffix - String.length suffix)%nat
    with (String.length a) by lia.
  apply substring_prefix.
Qed.

Section DisplayName.
Variable exec_run : Inode -> string -> list string -> Inode * list Byte.byte * bool.

(** When the query for the remote succeeds and its output, trimmed, ends in
    a slash, a name without a slash and [.git], [repoName] returns that
    name: everything up to the last slash and the suffix are taken off.  It
    runs the query once and writes nothing. *)
Theorem repoName_of_remote (repoPath : string) (st : State) (fs' : Inode)
    (out : list Byte.byte) (before name : string) :
  exec_run (st_fs st) repoPath git_config = (fs', out, true) ->
  strings.TrimSpace (string_of_list_byte out) = before +:+ "/" +:+ name +:+ ".git" ->
  slashfree name = true ->
  repoName exec_run repoPath st
  = (mkState fs' (st_ran st ++ [(repoPath, git_config)])%list (st_w st),
     Returned (inr name)).
Proof.
  intros Hrun Htrim Hname.
  unfold repoName, bind at 1, gitRemote, bind at 1, run.
  fold git_config. rewrite Hrun. unfold ret. rewrite Htrim.
  unfold strings.Split.
  change (before +:+ "/" +:+ name +:+ ".git")
    with (before +:+ String slash (name +:+ ".git")).
  rewrite last_split_from; [now rewrite TrimSuffix_append|].
  clear -Hname. induction name as [|c name IH]; [reflexivity|].
  rewrite append_cons. cbn in *. apply andb_prop in Hname as [-> Hn]. now apply IH.
Qed.

End DisplayName.

Lemma repoName_of_remote_witness :
  repoName sample_exec "r" (mkState (IDir 493 0 []) [] (mkResponseBuffer None []))
  = (mkState (IDir 493 0 []) [("r", git_config)] (mkResponseBuffer None []),
     Returned (inr "backend")).
Proof.
  apply (repoName_of_remote sample_exec "r"
           (mkState (IDir 493 0 []) [] (mkResponseBuffer None [])) (IDir 493 0 [])
           (list_byte_of_string "git@example.org:launchmango/backend.git ")
           "git@example.org:launchmango" "backend"); reflexivity.
Defined.

(** * What a PUT changes *)

Lemma set_entry_shape (s : string) (n n' : Inode) (es : list (string * Inode)) :
  os.lookup_entry s es = Some n ->
  shape n' = shape n ->
  map (fun e => (fst e, shape (snd e))) (os.set_entry s n' es)
  = map (fun e => (fst e, shape (snd e))) es.
Proof.
  intros Hl Hs. induction es as [| [k v] rest IH]; [discriminate|].
  cbn [os.lookup_entry os.set_entry] in *.
  destruct (String.eqb k s); cbn [map fst snd].
  - injection Hl as ->. now rewrite Hs.
  - now rewrite IH.
Qed.

Lemma write_at_shape (segs : list string) (cur cur' n0 : Inode)
    (data : list Byte.byte) (perm : Z) :
  os.namei cur segs = inr n0 ->
  os.write_at cur segs data perm = inr cur' ->
  shape cur' = shape cur.
Proof.
  revert cur cur'. induction segs as [|s rest IH]; intros cur cur' Hn Hw.
  - cbn [os.write_at] in Hw. destruct cur as [m d | m sz es]; [|discriminate].
    destruct (os.can_write m); [|discriminate]. now injection Hw as <-.
  - destruct cur as [m d | m sz es]; [discriminate|].
    cbn [os.namei os.write_at] in *.
    destruct (String.eqb s ""); [now apply IH|].
    destruct (negb (os.can_search m)); [discriminate|].
    destruct (String.eqb s "."); [now apply IH|].
    destruct (os.lookup_entry s es) as [n|] eqn:El; [|discriminate].
    destruct (os.write_at n rest data perm) as [e|n'] eqn:Ew; [discriminate|].
    injection Hw as <-. cbn [shape]. f_equal.
    apply set_entry_shape with n; [exact El | now apply IH].
Qed.

(** A PUT, whatever the request, creates no entry, removes none, and
    changes no name, no mode and no directory: the filesystem it leaves
    differs from the one it found in the bytes of files at most.  It runs no
    command, and its answer is an empty 200 or the 404 error. *)
Theorem setRepoFile_keeps_shape (r : Request) (fs : Inode) (ran : list Command) :
  shape (ServeHTTP setRepoFile r fs ran).1.1 = shape fs /\
  (ServeHTTP setRepoFile r fs ran).1.2 = ran /\
  ((ServeHTTP setRepoFile r fs ran).2 = mkResponse 200 [] \/
   (ServeHTTP setRepoFile r fs ran).2 = mkResponse 404 [JSONError 404 "not found"]).
Proof.
  unfold ServeHTTP, setRepoFile, bind, get_fs, os.Open, os.resolve, ioutil.WriteFile.
  cbn [st_fs].
  destruct (os.namei fs _) as [[]|file] eqn:Hn; [cbn; auto ..|].
  destruct (os.can_read (os.inode_mode file)); [|cbn; auto].
  destruct (os.write_at fs _ _ _) as [e|fs'] eqn:Hw; [cbn; auto|].
  cbn. split; [|auto]. exact (write_at_shape _ fs fs' file _ _ Hn Hw).
Qed.

(** A PUT on a regular file that may be read and written keeps the mode of
    the file and makes its size the number of bytes put. *)
Theorem setRepoFile_mode_and_size (id path : string) (B old : list Byte.byte)
    (m : Z) (fs : Inode) (ran : list Command) :
  os.resolve fs (id +:+ "/" +:+ path) = inr (IFile m old) ->
  os.can_read m = true ->
  os.can_write m = true ->
  os.Stat (ServeHTTP setRepoFile (mkRequest id path B) fs ran).1.1 (id +:+ "/" +:+ path)
  = inr (mkFileInfo (os.basename (id +:+ "/" +:+ path)) (Z.of_nat (length B)) m false).
Proof.
  intros Hres Hr Hw.
  destruct (write_at_namei _ fs m m old B Hres Hw) as (fs' & Hwr & Hn').
  unfold ServeHTTP, setRepoFile, bind, get_fs, os.Open, ioutil.WriteFile.
  cbn [st_fs vars_id vars_path Body]. rewrite Hres. cbn [os.inode_mode].
  rewrite Hr. cbn [os.inode_mode]. rewrite Hwr. cbn.
  unfold os.Stat, os.Lstat, os.resolve. now rewrite Hn'.
Qed.

Lemma setRepoFile_mode_and_size_witness :
  os.Stat (ServeHTTP setRepoFile (mkRequest "r" "a.txt" (list_byte_of_string "new"))
             (storage "r" (workdir (bytes_of 10) (bytes_of 5) [])) []).1.1 "r/a.txt"
  = inr (mkFileInfo "a.txt" 3 420 false).
Proof.
  apply (setRepoFile_mode_and_size "r" "a.txt" (list_byte_of_string "new") (bytes_of 10)
           420 (storage "r" (workdir (bytes_of 10) (bytes_of 5) [])) []); reflexivity.
Defined.





(** * Deleting a repository *)

Lemma Split_plain (name : string) : plain name = true -> strings.Split name slash = [name].
Proof.
  intros H. apply plain_inv in H as (Hs & _).
  unfold strings.Split. now rewrite split_from_slashfree.
Qed.

Lemma Split_dot_slash (name : string) :
  plain name = true -> strings.Split ("./" +:+ name) slash = ["."; name].
Proof.
  intros H. apply plain_inv in H as (Hs & _). unfold strings.Split.
  change ("./" +:+ name) with ("." +:+ String slash name).
  rewrite split_from_field by reflexivity. now rewrite split_from_slashfree.
Qed.

Lemma fileExists_root (m sz : Z) (es : list (string * Inode)) (name : string) :
  os.can_search m = true ->
  plain name = true ->
  fileExists (IDir m sz es) name
  = match os.lookup_entry name es with Some _ => true | None => false end.
Proof.
  intros Hm Hname. unfold fileExists, os.Stat, os.Lstat, os.resolve.
  rewrite Split_dot_slash by assumption. cbn [os.namei]. rewrite Hm.
  apply plain_inv in Hname as (_ & Ha & Hb & _).
  apply String.eqb_neq in Ha, Hb. cbn [negb String.eqb Ascii.eqb Bool.eqb andb].
  rewrite Ha, Hb. now destruct (os.lookup_entry name es).
Qed.

Lemma lookup_entry_None (name : string) (es : list (string * Inode)) :
  ~ In name (map fst es) -> os.lookup_entry name es = None.
Proof.
  induction es as [| [k v] rest IH]; [reflexivity|]. cbn. intros H.
  destruct (String.eqb k name) eqn:E; [apply String.eqb_eq in E; tauto | apply IH; tauto].
Qed.

Lemma lookup_delete_entry (name other : string) (es : list (string * Inode)) :
  List.NoDup (map fst es) ->
  os.lookup_entry other (os.delete_entry name es)
  = if String.eqb other name then None else os.lookup_entry other es.
Proof.
  intros Hnd. induction es as [| [k v] rest IH]; cbn [os.delete_entry os.lookup_entry].
  - now destruct (String.eqb other name).
  - cbn in Hnd. apply List.NoDup_cons_iff in Hnd as [Hk Hrest].
    destruct (String.eqb k name) eqn:E.
    + apply String.eqb_eq in E as ->.
      destruct (String.eqb other name) eqn:E2.
      * apply String.eqb_eq in E2 as ->. now apply lookup_entry_None.
      * rewrite String.eqb_sym, E2. reflexivity.
    + cbn [os.lookup_entry]. rewrite IH by assumption.
      destruct (String.eqb k other) eqn:E3; [|reflexivity].
      apply String.eqb_eq in E3 as ->. now rewrite E.
Qed.

(** Deleting a repository that is an entry of a storage root the server may
    search and write, all of whose directories may be listed, searched and
    written, removes that entry and nothing else: the answer is an empty
    200, no command is run, the id no longer exists afterwards, and every
    other name resolves as before. *)
Theorem deleteRepo_removes (r : Request) (m sz : Z) (es : list (string * Inode))
    (n : Inode) (ran : list Command) :
  os.can_search m = true ->
  os.can_write m = true ->
  plain (vars_id r) = true ->
  List.NoDup (map fst es) ->
  os.lookup_entry (vars_id r) es = Some n ->
  removable n = true ->
  exists es',
    ServeHTTP deleteRepo r (IDir m sz es) ran = (IDir m sz es', ran, mkResponse 200 []) /\
    fileExists (IDir m sz es') (vars_id r) = false /\
    forall other, other <> vars_id r ->
                  os.lookup_entry other es' = os.lookup_entry other es.
Proof.
  intros Hs Hw Hid Hnd Hl _. exists (os.delete_entry (vars_id r) es).
  split; [|split].
  - unfold ServeHTTP, deleteRepo, bind, get_fs. cbn [st_fs].
    rewrite fileExists_root, Hl by assumption. cbn [negb].
    unfold os.RemoveAll. rewrite Split_plain by assumption. cbn [os.remove_at].
    pose proof (plain_inv _ Hid) as (_ & Ha & Hb & _).
    apply String.eqb_neq in Ha, Hb. now rewrite Ha, Hb, Hs, Hl, Hw.
  - rewrite fileExists_root, lookup_delete_entry, String.eqb_refl by assumption.
    reflexivity.
  - intros other Hne. rewrite lookup_delete_entry by assumption.
    apply String.eqb_neq in Hne. now rewrite Hne.
Qed.

Lemma deleteRepo_removes_witness :
  exists es',
    ServeHTTP deleteRepo (mkRequest "r" "" [])
      (IDir 493 128 [("r", workdir [] [] []); ("s", IDir 493 64 [])]) []
    = (IDir 493 128 es', [], mkResponse 200 []) /\
    fileExists (IDir 493 128 es') "r" = false /\
    forall other, other <> "r" ->
                  os.lookup_entry other es'
                  = os.lookup_entry other [("r", workdir [] [] []); ("s", IDir 493 64 [])].
Proof.
  apply (deleteRepo_removes (mkRequest "r" "" []) 493 128
           [("r", workdir [] [] []); ("s", IDir 493 64 [])] (workdir [] [] []) []);
    try reflexivity.
  repeat constructor; cbn; intuition discriminate.
Defined.

(** * Building and running *)

Section BuildAndRun.
Variable exec_run : Inode -> string -> list string -> Inode * list Byte.byte * bool.

(** For an id that exists, the build handler runs one command,
    [xcodebuild], in the directory of the repository, and answers with its
    output as the body: 200 when the build succeeds, 500 when it fails, in
    which case the body is still the output and not the JSON error. *)
Theorem buildRepo_outcome (r : Request) (fs : Inode) (ran : list Command) :
  fileExists fs (vars_id r) = true ->
  let argv := ["xcodebuild"; "-arch"; "i386"; "-sdk"; "iphonesimulator"] in
  ServeHTTP (buildRepo exec_run) r fs ran
  = ((exec_run fs (vars_id r) argv).1.1, (ran ++ [(vars_id r, argv)])%list,
     mkResponse (if (exec_run fs (vars_id r) argv).2 then 200 else 500)
       [Raw (exec_run fs (vars_id r) argv).1.2]).
Proof.
  intros Hex. cbv zeta. unfold ServeHTTP, buildRepo, bind at 1, get_fs.
  cbn [st_fs]. rewrite Hex. cbn [negb].
  unfold bind, run, Write, WriteHeader, ret. cbn [st_fs st_ran st_w].
  destruct (exec_run fs (vars_id r) _) as [[fs1 out] ok]. now destruct ok.
Qed.






End BuildAndRun.

Lemma buildRepo_outcome_witness :
  ServeHTTP (buildRepo sample_exec) (mkRequest "r" "" []) (storage "r" (workdir [] [] [])) []
  = (storage "r" (workdir [] [] []),
     [("r", ["xcodebuild"; "-arch"; "i386"; "-sdk"; "iphonesimulator"])],
     mkResponse 200 [Raw (list_byte_of_string "git@example.org:launchmango/backend.git ")]).
Proof.
  exact (buildRepo_outcome sample_exec (mkRequest "r" "" [])
           (storage "r" (workdir [] [] [])) [] eq_refl).
Defined.



(** * More on enumeration *)

Section MoreEnumeration.
Variable exec_run : Inode -> string -> list string -> Inode * list Byte.byte * bool.

Lemma listRepos_loop_none (fis : list FileInfo) (repos : list Repository) (st : State) :
  forallb (fun fi => negb (listed fi)) fis = true ->
  listRepos_loop exec_run fis repos st = (st, Returned (inr repos)).
Proof.
  induction fis as [|fi rest IH]; [reflexivity|]. cbn [forallb listRepos_loop].
  intros H. apply andb_prop in H as [Hfi Hrest]. apply negb_true_iff in Hfi.
  unfold listed in Hfi. rewrite Hfi. now apply IH.
Qed.

(** When the storage root cannot be listed the enumeration is answered 500;
    when it lists no directory whose name the expression matches, it is
    answered 200 with the empty list.  Neither runs a command or changes the
    filesystem. *)
Theorem listRepos_nothing_listed (r : Request) (fs : Inode) (ran : list Command) :
  match os.Readdir fs "." with
  | inl _ =>
      ServeHTTP (listRepos exec_run) r fs ran
      = (fs, ran, mkResponse 500 [JSONError 500 "Internal Server Error"])
  | inr fis =>
      forallb (fun fi => negb (fi_IsDir fi && regexpMD5.MatchString (fi_Name fi))) fis = true ->
      ServeHTTP (listRepos exec_run) r fs ran = (fs, ran, mkResponse 200 [JSONRepos []])
  end.
Proof.
  destruct (os.Readdir fs ".") as [e|fis] eqn:Hdir.
  - unfold ServeHTTP, listRepos, bind, get_fs. cbn [st_fs]. now rewrite Hdir.
  - intros H. unfold ServeHTTP, listRepos, bind, get_fs. cbn [st_fs]. rewrite Hdir.
    now rewrite listRepos_loop_none.
Qed.

Lemma listRepos_loop_ran (fis : list FileInfo) (repos repos' : list Repository)
    (st st' : State) :
  listRepos_loop exec_run fis repos st = (st', Returned (inr repos')) ->
  st_ran st'
  = (st_ran st ++
     flat_map (fun fi => [(fi_Name fi, git_config); (fi_Name fi, git_config)])
       (List.filter listed fis))%list.
Proof.
  revert repos st. induction fis as [|fi rest IH]; intros repos st H.
  - cbn in H. injection H as <- _. cbn. now rewrite app_nil_r.
  - cbn [listRepos_loop] in H. cbn [List.filter]. unfold listed at 1.
    destruct (fi_IsDir fi && regexpMD5.MatchString (fi_Name fi)); [|now apply IH in H].
    unfold bind at 1, gitRemote, bind at 1, run in H. fold git_config in H.
    destruct (exec_run (st_fs st) (fi_Name fi) git_config) as [[fs1 out1] [|]];
      [|discriminate].
    unfold ret, bind at 1, repoName, bind at 1, gitRemote, bind at 1, run in H.
    fold git_config in H. cbn [st_fs st_ran st_w] in H.
    destruct (exec_run fs1 (fi_Name fi) git_config) as [[fs2 out2] [|]];
      [|discriminate].
    unfold ret, bind at 1, loadRepo, bind at 1, get_fs, lift in H.
    cbn [st_fs st_ran st_w] in H.
    destruct (loadRepoFiles fs2 _) as [repo|]; [|discriminate].
    apply IH in H. rewrite H. cbn [st_ran flat_map]. now rewrite <- !app_assoc.
Qed.

(** An enumeration that succeeds has run the query for the remote twice in
    every directory it lists, in directory order, once for the URL and once
    more for the name, and nothing else. *)
Theorem listRepos_queries (r : Request) (fis : list FileInfo) (st st' : State) :
  os.Readdir (st_fs st) "." = inr fis ->
  listRepos exec_run r st = (st', Returned (inr tt)) ->
  st_ran st'
  = (st_ran st ++
     flat_map (fun fi => [(fi_Name fi, git_config); (fi_Name fi, git_config)])
       (List.filter (fun fi => fi_IsDir fi && regexpMD5.MatchString (fi_Name fi)) fis))%list.
Proof.
  intros Hdir H. unfold listRepos, bind at 1, get_fs in H. rewrite Hdir in H.
  unfold bind at 1 in H.
  destruct (listRepos_loop exec_run fis [] st) as [st1 [[e|repos]|]] eqn:El;
    try discriminate.
  apply listRepos_loop_ran in El.
  unfold renderJSON, bind, WriteHeader, Write in H. cbn in H.
  injection H as <-. exact El.
Qed.

Lemma bind_eq {A B : Type} (m : M A) (k : A -> M B) (st : State) :
  bind m k st
  = match m st with
    | (st', Returned (inr a)) => k a st'
    | (st', Returned (inl e)) => (st', Returned (inl e))
    | (st', Panicked) => (st', Panicked)
    end.
Proof. reflexivity. Qed.

Lemma gitRemote_eq (repoPath : string) (st : State) :
  gitRemote exec_run repoPath st
  = (mkState (exec_run (st_fs st) repoPath git_config).1.1
       (st_ran st ++ [(repoPath, git_config)])%list (st_w st),
     if (exec_run (st_fs st) repoPath git_config).2
     then Returned (inr (strings.TrimSpace
                           (string_of_list_byte (exec_run (st_fs st) repoPath git_config).1.2)))
     else Returned (inl ExitError)).
Proof.
  unfold gitRemote, bind, run. fold git_config.
  destruct (exec_run (st_fs st) repoPath git_config) as [[fs' out] ok]. now destruct ok.
Qed.

Lemma repoName_outcome (repoPath : string) (st : State) :
  (exists name, (repoName exec_run repoPath st).2 = Returned (inr name)) \/
  (repoName exec_run repoPath st).2 = Returned (inl ExitError).
Proof.
  unfold repoName. rewrite bind_eq, gitRemote_eq.
  destruct (exec_run (st_fs st) repoPath git_config).2; cbn; eauto.
Qed.

Lemma loadRepo_outcome (repo : Repository) (st : State) :
  (exists repo', (loadRepo repo st).2 = Returned (inr repo')) \/
  (loadRepo repo st).2 = Panicked.
Proof.
  unfold loadRepo, bind, get_fs, lift. destruct (loadRepoFiles (st_fs st) repo); cbn; eauto.
Qed.

Lemma listRepos_loop_fails (fis : list FileInfo) (fi : FileInfo)
    (repos : list Repository) (st : State) :
  In fi fis ->
  listed fi = true ->
  (forall fs, (exec_run fs (fi_Name fi) git_config).2 = false) ->
  (listRepos_loop exec_run fis repos st).2 = Returned (inl ExitError) \/
  (listRepos_loop exec_run fis repos st).2 = Panicked.
Proof.
  intros Hin Hl Hfail. revert repos st.
  induction fis as [|g rest IH]; intros repos st; [destruct Hin|].
  cbn [listRepos_loop]. fold (listed g).
  destruct (listed g) eqn:Hg.
  - rewrite bind_eq, gitRemote_eq.
    destruct (exec_run (st_fs st) (fi_Name g) git_config).2 eqn:E1; [|now left].
    rewrite bind_eq.
    destruct (repoName_outcome (fi_Name g)
                (mkState (exec_run (st_fs st) (fi_Name g) git_config).1.1
                   (st_ran st ++ [(fi_Name g, git_config)]) (st_w st))) as [[nm Hn] | Hn];
      destruct (repoName exec_run (fi_Name g) _) as [st2 o2]; cbn [snd] in Hn; subst o2;
      [|now left].
    rewrite bind_eq.
    destruct (loadRepo_outcome (mkRepository (fi_Name g) nm
                (strings.TrimSpace
                   (string_of_list_byte (exec_run (st_fs st) (fi_Name g) git_config).1.2))
                None) st2) as [[repo Hr] | Hr];
      destruct (loadRepo _ st2) as [st3 o3]; cbn [snd] in Hr; subst o3; [|now right].
    destruct Hin as [-> | Hin]; [|now apply IH].
    rewrite Hfail in E1. discriminate.
  - destruct Hin as [-> | Hin]; [congruence | now apply IH].
Qed.

(** The enumeration is all or nothing: when the query for the remote fails
    in one directory that is listed, the answer is the 500 error alone, with
    no repository in it, whatever the other directories are. *)
Theorem listRepos_all_or_nothing (r : Request) (fs : Inode) (ran : list Command)
    (fis : list FileInfo) (fi : FileInfo) :
  os.Readdir fs "." = inr fis ->
  In fi fis ->
  fi_IsDir fi && regexpMD5.MatchString (fi_Name fi) = true ->
  (forall fs', (exec_run fs' (fi_Name fi) git_config).2 = false) ->
  (ServeHTTP (listRepos exec_run) r fs ran).2
  = mkResponse 500 [JSONError 500 "Internal Server Error"].
Proof.
  intros Hdir Hin Hl Hfail. unfold ServeHTTP, listRepos, bind at 1, get_fs.
  cbn [st_fs]. rewrite Hdir. unfold bind at 1.
  destruct (listRepos_loop_fails fis fi []
              (mkState fs ran (mkResponseBuffer None [])) Hin Hl Hfail) as [H | H];
    destruct (listRepos_loop exec_run fis [] _) as [st1 o]; cbn [snd] in H; now subst o.
Qed.

End MoreEnumeration.

Lemma listRepos_nothing_listed_witness :
  ServeHTTP (listRepos sample_exec) (mkRequest "" "" [])
    (IDir 493 128 [("README.md", IFile 420 []); ("notes", IDir 493 64 [])]) []
  = (IDir 493 128 [("README.md", IFile 420 []); ("notes", IDir 493 64 [])], [],
     mkResponse 200 [JSONRepos []]).
Proof.
  exact (listRepos_nothing_listed sample_exec (mkRequest "" "" [])
           (IDir 493 128 [("README.md", IFile 420 []); ("notes", IDir 493 64 [])]) []
           eq_refl).
Defined.

Lemma listRepos_queries_witness :
  exists st',
    listRepos sample_exec (mkRequest "" "" [])
      (mkState (IDir 493 128 [("900150983cd24fb0d6963f7d28e17f72", workdir [] [] []);
                              ("README.md", IFile 420 [])])
         [] (mkResponseBuffer None []))
    = (st', Returned (inr tt)) /\
    st_ran st' = [("900150983cd24fb0d6963f7d28e17f72", git_config);
                  ("900150983cd24fb0d6963f7d28e17f72", git_config)].
Proof.
  eexists. split; [vm_compute; reflexivity|].
  refine (listRepos_queries sample_exec (mkRequest "" "" [])
            [mkFileInfo "900150983cd24fb0d6963f7d28e17f72" 96 493 true;
             mkFileInfo "README.md" 0 420 false]
            (mkState (IDir 493 128 [("900150983cd24fb0d6963f7d28e17f72", workdir [] [] []);
                                    ("README.md", IFile 420 [])])
               [] (mkResponseBuffer None [])) _ _ _);
    vm_compute; reflexivity.
Defined.

(** A provider whose query fails everywhere. *)
Lemma listRepos_all_or_nothing_witness :
  (ServeHTTP (listRepos (fun fs _ _ => (fs, [], false))) (mkRequest "" "" [])
     (IDir 493 128 [("900150983cd24fb0d6963f7d28e17f72", workdir [] [] [])]) []).2
  = mkResponse 500 [JSONError 500 "Internal Server Error"].
Proof.
  apply (listRepos_all_or_nothing (fun fs _ _ => (fs, [], false)) (mkRequest "" "" [])
           (IDir 493 128 [("900150983cd24fb0d6963f7d28e17f72", workdir [] [] [])]) []
           [mkFileInfo "900150983cd24fb0d6963f7d28e17f72" 96 493 true]
           (mkFileInfo "900150983cd24fb0d6963f7d28e17f72" 96 493 true)).
  - reflexivity.
  - now left.
  - reflexivity.
  - reflexivity.
Defined.
(** * The statuses of the responses *)

Lemma answers_ret {A : Type} (a : A) : answers (ret a).
Proof. intros st H. split; [exact H | discriminate]. Qed.

Lemma answers_fail {A : Type} (e : error) :
  (forall status msg, e = HTTPError status msg ->
     status = StatusBadRequest \/ status = StatusNotFound) ->
  answers (@fail A e).
Proof. intros He st H. split; [exact H|]. intros status msg [= E]. now apply (He status msg). Qed.

Lemma answers_lift {A : Type} (o : Outcome A) : answers (lift o).
Proof. intros st H. destruct o; (split; [exact H | discriminate]). Qed.

Lemma answers_bind {A B : Type} (m : M A) (k : A -> M B) :
  answers m -> (forall a, answers (k a)) -> answers (bind m k).
Proof.
  intros Hm Hk st H. unfold bind. destruct (Hm st H) as [H1 H2].
  destruct (m st) as [st' [[e|a]|]]; cbn [fst snd] in *.
  - split; [exact H1|]. intros status msg E. apply (H2 status msg). congruence.
  - now apply Hk.
  - split; [exact H1 | discriminate].
Qed.

Lemma answers_get_fs : answers get_fs.
Proof. intros st H. split; [exact H | discriminate]. Qed.

Lemma answers_put_fs (fs : Inode) : answers (put_fs fs).
Proof. intros st H. split; [exact H | discriminate]. Qed.

Lemma answers_Write (c : Chunk) : answers (Write c).
Proof. intros st H. split; [exact H | discriminate]. Qed.

Lemma answers_WriteHeader (status : Z) :
  status = StatusOK \/ status = StatusInternalServerError -> answers (WriteHeader status).
Proof.
  intros Hs st H. split; [|discriminate]. cbn. right. destruct Hs as [-> | ->]; auto.
Qed.

Lemma answers_renderJSON (v : Chunk) : answers (renderJSON StatusOK v).
Proof.
  apply answers_bind; [apply answers_WriteHeader; now left | intros _; apply answers_Write].
Qed.

Lemma answers_errNotFound {A : Type} : answers (@fail A errNotFound).
Proof. apply answers_fail. intros status msg [= <- _]. now right. Qed.

Section Statuses.
Variable exec_run : Inode -> string -> list string -> Inode * list Byte.byte * bool.
Variable json_Decode : list Byte.byte -> string + Repository.

Lemma answers_run (dir : string) (argv : list string) : answers (run exec_run dir argv).
Proof.
  intros st H. unfold run. destruct (exec_run (st_fs st) dir argv) as [[fs' out] ok].
  split; [exact H | discriminate].
Qed.

Lemma answers_spawn (argv : list string) : answers (spawn argv).
Proof. intros st H. split; [exact H | discriminate]. Qed.

Lemma answers_runCmd (argv : list string) : answers (runCmd exec_run argv).
Proof.
  apply answers_bind; [apply answers_run|]. intros [out [|]];
    [apply answers_ret | apply answers_fail; discriminate].
Qed.

Lemma answers_gitRemote (repoPath : string) : answers (gitRemote exec_run repoPath).
Proof.
  apply answers_bind; [apply answers_run|]. intros [out [|]];
    [apply answers_ret | apply answers_fail; discriminate].
Qed.

Lemma answers_repoName (repoPath : string) : answers (repoName exec_run repoPath).
Proof. apply answers_bind; [apply answers_gitRemote | intros; apply answers_ret]. Qed.

Lemma answers_loadRepo (repo : Repository) : answers (loadRepo repo).
Proof. apply answers_bind; [apply answers_get_fs | intros; apply answers_lift]. Qed.

Lemma answers_listRepos_loop (fis : list FileInfo) (repos : list Repository) :
  answers (listRepos_loop exec_run fis repos).
Proof.
  revert repos. induction fis as [|fi rest IH]; intros repos; [apply answers_ret|].
  cbn [listRepos_loop]. destruct (fi_IsDir fi && regexpMD5.MatchString (fi_Name fi)); [|apply IH].
  apply answers_bind; [apply answers_gitRemote|]. intros remote.
  apply answers_bind; [apply answers_repoName|]. intros nm.
  apply answers_bind; [apply answers_loadRepo|]. intros repo. apply IH.
Qed.

Lemma answers_createRepo (r : Request) : answers (createRepo exec_run json_Decode r).
Proof.
  unfold createRepo. destruct (json_Decode (Body r)) as [msg|repo].
  - apply answers_fail. intros status m [= <- _]. now left.
  - destruct (String.eqb (RURL repo) "").
    + apply answers_fail. intros status m [= <- _]. now left.
    + apply answers_bind; [apply answers_get_fs|]. intros fs.
      destruct (fileExists fs _).
      * apply answers_fail. intros status m [= <- _]. now left.
      * apply answers_bind; [apply answers_runCmd|]. intros _.
        apply answers_bind; [apply answers_loadRepo|]. intros repo'.
        apply answers_renderJSON.
Qed.

Lemma answers_listRepos (r : Request) : answers (listRepos exec_run r).
Proof.
  apply answers_bind; [apply answers_get_fs|]. intros fs.
  destruct (os.Readdir fs ".") as [e|fis]; [apply answers_fail; discriminate|].
  apply answers_bind; [apply answers_listRepos_loop|]. intros repos. apply answers_renderJSON.
Qed.

Lemma answers_getRepo (r : Request) : answers (getRepo exec_run r).
Proof.
  apply answers_bind; [apply answers_get_fs|]. intros fs.
  destruct (negb (fileExists fs _)); [apply answers_errNotFound|].
  apply answers_bind; [apply answers_gitRemote|]. intros remote.
  apply answers_bind; [apply answers_repoName|]. intros nm.
  apply answers_bind; [apply answers_loadRepo|]. intros repo. apply answers_renderJSON.
Qed.

Lemma answers_deleteRepo (r : Request) : answers (deleteRepo r).
Proof.
  apply answers_bind; [apply answers_get_fs|]. intros fs.
  destruct (negb (fileExists fs _)); [apply answers_errNotFound|].
  destruct (os.RemoveAll fs _) as [fs' [e|]];
    [apply answers_fail; discriminate | apply answers_put_fs].
Qed.

Lemma answers_buildRepo (r : Request) : answers (buildRepo exec_run r).
Proof.
  apply answers_bind; [apply answers_get_fs|]. intros fs.
  destruct (negb (fileExists fs _)); [apply answers_errNotFound|].
  apply answers_bind; [apply answers_run|]. intros [out ok].
  apply answers_bind; [apply answers_Write|]. intros _.
  destruct ok; [apply answers_ret | apply answers_WriteHeader; now right].
Qed.

Lemma answers_runRepo (r : Request) : answers (runRepo exec_run r).
Proof.
  apply answers_bind; [apply answers_get_fs|]. intros fs.
  destruct (negb (fileExists fs _)); [apply answers_errNotFound|]. cbv zeta.
  apply answers_bind; [apply answers_spawn|]. intros _.
  apply answers_bind; [apply answers_run|]. intros [out ok].
  destruct ok; [apply answers_ret | apply answers_fail; discriminate].
Qed.

Lemma answers_getRepoFile (r : Request) : answers (getRepoFile r).
Proof.
  apply answers_bind; [apply answers_get_fs|]. intros fs.
  destruct (os.Open fs _) as [err|file]; [|apply answers_Write].
  destruct (os.IsNotExist err); [apply answers_errNotFound | apply answers_fail; discriminate].
Qed.

Lemma answers_setRepoFile (r : Request) : answers (setRepoFile r).
Proof.
  apply answers_bind; [apply answers_get_fs|]. intros fs.
  destruct (os.Open fs _) as [err|file]; [|apply answers_put_fs].
  destruct (os.IsNotExist err); [apply answers_errNotFound | apply answers_ret].
Qed.

(** Whatever the request, the filesystem and the outside world, a handler
    registered with the router answers with one of four statuses: 200,
    400, 404 or 500. *)
Theorem routes_statuses (h : Request -> M unit) (r : Request)
    (fs : Inode) (ran : list Command) :
  In h (routes exec_run json_Decode) ->
  let status := resp_status (ServeHTTP h r fs ran).2 in
  status = 200 \/ status = 400 \/ status = 404 \/ status = 500.
Proof.
  intros Hin. cbv zeta.
  assert (Hh : answers (h r)).
  { unfold routes in Hin. cbn [In] in Hin.
    destruct Hin as [<- | [<- | [<- | [<- | [<- | [<- | [<- | [<- | []]]]]]]]].
    - apply answers_createRepo.
    - apply answers_listRepos.
    - apply answers_getRepo.
    - apply answers_deleteRepo.
    - apply answers_buildRepo.
    - apply answers_runRepo.
    - apply answers_getRepoFile.
    - apply answers_setRepoFile. }
  unfold ServeHTTP.
  destruct (Hh (mkState fs ran (mkResponseBuffer None []))) as [H1 H2]; [now left|].
  destruct (h r _) as [st' [[[status msg | e | ] | a] | ]]; cbn in *; auto.
  - destruct (H2 status msg eq_refl) as [-> | ->]; auto.
  - destruct H1 as [-> | [-> | ->]]; cbn; auto.
Qed.

End Statuses.

Lemma routes_statuses_witness :
  In (getRepo sample_exec) (routes sample_exec sample_decode) /\
  (let status :=
     resp_status (ServeHTTP (getRepo sample_exec) (mkRequest "r" "" [])
                    (storage "r" (workdir [] [] [])) []).2 in
   status = 200 \/ status = 400 \/ status = 404 \/ status = 500).
Proof.
  split; [simpl; auto|].
  apply (routes_statuses sample_exec sample_decode); simpl; auto.
Defined.
